(** * messaging/nats.go: connection set-up and the error-logging callback

    A shallow embedding of [src/messaging/nats.go].  The Go functions become
    computations in a small state monad over a [World]: the store of
    [NatsConfig] structures reached through [*NatsConfig] pointers, and the
    trace of calls made to the collaborators of the file (service discovery,
    the TLS builder, the nats client, logrus).  A nil-pointer dereference is
    the outcome [Panicked]. *)

From Stdlib Require Import Ascii.
From stdpp Require Import base strings gmap list pretty.

Open Scope Z_scope.

(** ** Data *)

(** A Go [error] value.  Errors are compared by identity in the source
    ([err == nats.ErrSlowConsumer]): the sentinel is a constructor of its own,
    every other error value carries its message. *)
Inductive error : Type :=
  | ErrSlowConsumer
  | errorString (msg : string).

#[global] Instance error_eq_dec : EqDecision error.
Proof. solve_decision. Defined.

(** An endpoint returned by [discovery.DiscoverEndpoints]: the two fields the
    source reads, [endpoint.Target] (printed with [%s]) and [endpoint.Port]
    (printed with [%d]). *)
Record Endpoint : Type := { Target : string; Port : Z }.

(** [tls.Config] of this repository, with the fields [Fields] reads. *)
Record tls_Config : Type :=
  { CAFiles : list string; CertFile : string; KeyFile : string }.

(** The [*crypto/tls.Config] that [tls.Config.TLSConfig] builds: a handle. *)
Inductive crypto_tls_Config : Type := CryptoTLS (id : N).

Record NatsConfig : Type :=
  { TLS : option tls_Config;          (* *tls.Config, [None] is nil *)
    DiscoveryName : string;
    Servers : list string;
    LogsSubject : string }.

(** [*nats.Conn] and [*nats.Subscription] point to these. *)
Inductive Conn : Type := ConnHandle (id : N).

Record Subscription : Type :=
  { Subject : string; Queue : string; sid : N }.

(** [nats.Status] is an integer type. *)
Definition Status : Type := Z.

(** ** logrus *)

(** The values the source stores in [logrus.Fields]. *)
Inductive FieldValue : Type :=
  | VString (s : string)
  | VInt (n : Z)
  | VStatus (s : Status)
  | VError (err : option error).

Inductive Level : Type := ErrorLevel | DebugLevel.

(** [logrus.Entry]: the fields it carries ([Data], a Go map). *)
Record Entry : Type := { Data : gmap string FieldValue }.

(** [entry.WithFields(fields)] copies [entry.Data] and then stores every
    field of [fields] in the copy: the new fields win. *)
Definition WithFields (entry : Entry) (fields : gmap string FieldValue) : Entry :=
  {| Data := fields ∪ Data entry |}.

Definition WithField (entry : Entry) (key : string) (value : FieldValue) : Entry :=
  WithFields entry {[ key := value ]}.

(** [entry.WithError(err)] is [entry.WithField("error", err)]. *)
Definition WithError (entry : Entry) (err : option error) : Entry :=
  WithField entry "error" (VError err).

(** ** nats options and handlers *)

(** A [nats.ErrHandler] function value.  The function values of this file are
    the closures of the function literal in [ErrorHandler], determined by the
    variable they capture. *)
Record ErrHandler : Type := { errLogger : Entry }.

(** [nats.Option]: the two options the source builds. *)
Inductive nats_Option : Type :=
  | nats_Secure (tlsConfig : crypto_tls_Config)
  | nats_ErrorHandler (cb : ErrHandler).

(** ** The world *)

(** Calls that leave the file. *)
Inductive Event : Type :=
  | EvDiscoverEndpoints (serviceName : string)
  | EvTLSConfig (t : tls_Config)
  | EvConnect (url : string) (options : list nats_Option)
  | EvPending (sub : Subscription)
  | EvAddHook (nc : option Conn) (subject : string)
  | EvLog (level : Level) (data : gmap string FieldValue) (msg : string).

Definition loc : Type := positive.

Record World : Type :=
  { configs : gmap loc NatsConfig;    (* the NatsConfig structures in memory *)
    trace : list Event }.

Definition set_trace (w : World) (t : list Event) : World :=
  {| configs := configs w; trace := t |}.

Definition set_configs (w : World) (c : gmap loc NatsConfig) : World :=
  {| configs := c; trace := trace w |}.

Definition set_Servers (cfg : NatsConfig) (servers : list string) : NatsConfig :=
  {| TLS := TLS cfg; DiscoveryName := DiscoveryName cfg;
     Servers := servers; LogsSubject := LogsSubject cfg |}.

(** ** The monad *)

Inductive Outcome (A : Type) : Type :=
  | Returned (a : A) (w : World)
  | Panicked (w : World).
Arguments Returned {A} a w.
Arguments Panicked {A} w.

Definition M (A : Type) : Type := World → Outcome A.

#[global] Instance M_ret : MRet M := λ A a w, Returned a w.

#[global] Instance M_bind : MBind M := λ A B f m w,
  match m w with
  | Returned a w' => f a w'
  | Panicked w' => Panicked w'
  end.

Definition panic {A : Type} : M A := λ w, Panicked w.

Definition emit (ev : Event) : M unit :=
  λ w, Returned tt (set_trace w (trace w ++ [ev])).

(** Reading through a [*NatsConfig]: nil panics. *)
Definition load (config : option loc) : M NatsConfig := λ w,
  match config with
  | None => Panicked w
  | Some l =>
      match configs w !! l with
      | Some cfg => Returned cfg w
      | None => Panicked w
      end
  end.

(** [config.Servers = servers]. *)
Definition store_Servers (config : option loc) (servers : list string) : M unit := λ w,
  match config with
  | None => Panicked w
  | Some l =>
      match configs w !! l with
      | Some cfg => Returned tt (set_configs w (<[l := set_Servers cfg servers]> (configs w)))
      | None => Panicked w
      end
  end.

(** Reading through any other pointer. *)
Definition deref {A : Type} (p : option A) : M A :=
  match p with
  | Some a => mret a
  | None => panic
  end.

(** ** strings and fmt *)

(** [strings.Join(elems, sep)]: nothing for no element, the element itself
    for one, otherwise the first element followed by [sep] and the next
    element, for every next element. *)
Definition strings_Join (elems : list string) (sep : string) : string :=
  match elems with
  | [] => ""
  | [s] => s
  | s :: rest => fold_left (λ b s', b +:+ sep +:+ s') rest s
  end.

(** [fmt.Sprintf("nats://%s:%d", target, port)]. *)
Definition Sprintf_nats_url (target : string) (port : Z) : string :=
  "nats://" +:+ target +:+ ":" +:+ pretty port.

(** ** Collaborators *)

(** The functions the file calls and does not define.  A Go function that
    returns [(value, error)] returns a pair here, with [None] for nil. *)
Record Externals : Type :=
  { DiscoverEndpoints : string → list Endpoint * option error;
    TLSConfig : tls_Config → option crypto_tls_Config * option error;
    Connect : string → list nats_Option → option Conn * option error;
    conn_Status : Conn → Status;
    Pending : Subscription → Z * Z * option error }.

Section Messaging.

Context (ext : Externals).

Definition discovery_DiscoverEndpoints (serviceName : string)
  : M (list Endpoint * option error) :=
  emit (EvDiscoverEndpoints serviceName);;
  mret (DiscoverEndpoints ext serviceName).

Definition tls_TLSConfig (t : tls_Config)
  : M (option crypto_tls_Config * option error) :=
  emit (EvTLSConfig t);;
  mret (TLSConfig ext t).

Definition nats_Connect (url : string) (options : list nats_Option)
  : M (option Conn * option error) :=
  emit (EvConnect url options);;
  mret (Connect ext url options).

(** [sub.Pending()]. *)
Definition sub_Pending (sub : Subscription) : M (Z * Z * option error) :=
  emit (EvPending sub);;
  mret (Pending ext sub).

(** [conn.Status()]: the method of the nats client reads its receiver, so a
    nil [conn] panics. *)
Definition Conn_Status (conn : option Conn) : M Status :=
  c ← deref conn;
  mret (conn_Status ext c).

Definition Entry_Error (entry : Entry) (msg : string) : M unit :=
  emit (EvLog ErrorLevel (Data entry) msg).

Definition Entry_Debug (entry : Entry) (msg : string) : M unit :=
  emit (EvLog DebugLevel (Data entry) msg).

(** ** The functions of nats.go *)

(** [func (config *NatsConfig) ServerString() string] *)
Definition ServerString (config : option loc) : M string :=
  cfg ← load config;
  mret (strings_Join (Servers cfg) ",").

(** [func discoverNatsURLs(serviceName string) ([]string, error)] *)
Definition discoverNatsURLs (serviceName : string) : M (list string * option error) :=
  let natsURLs : list string := [] in
  '(endpoints, err) ← discovery_DiscoverEndpoints serviceName;
  match err with
  | Some e => mret ([], Some e)
  | None =>
      mret (fold_left
              (λ natsURLs endpoint,
                 natsURLs ++ [Sprintf_nats_url (Target endpoint) (Port endpoint)])
              endpoints natsURLs,
            None)
  end.

(** [func ConnectToNats(config *NatsConfig, errHandler nats.ErrHandler) ( *nats.Conn, error )]

    Each [if] block of the source that can return early yields the error it
    returns with, or [None] to go on. *)
Definition ConnectToNats (config : option loc) (errHandler : option ErrHandler)
  : M (option Conn * option error) :=
  cfg ← load config;
  early ←
    (if decide (DiscoveryName cfg ≠ "") then
       '(servers, err) ← discoverNatsURLs (DiscoveryName cfg);
       match err with
       | Some e => mret (Some e)
       | None => store_Servers config servers;; mret None
       end
     else mret None);
  match early with
  | Some e => mret (None, Some e)
  | None =>
      let options : list nats_Option := [] in
      cfg ← load config;
      '(options, early) ←
        match TLS cfg with
        | Some t =>
            '(tlsConfig, err) ← tls_TLSConfig t;
            match err with
            | Some e => mret (options, Some e)
            | None =>
                match tlsConfig with
                | Some c => mret (options ++ [nats_Secure c], None)
                | None => mret (options, None)
                end
            end
        | None => mret (options, None)
        end;
      match early with
      | Some e => mret (None, Some e)
      | None =>
          let options :=
            match errHandler with
            | Some h => options ++ [nats_ErrorHandler h]
            | None => options
            end in
          url ← ServerString config;
          nats_Connect url options
      end
  end.

(** The function literal returned by [ErrorHandler], with its captured
    variable as first argument. *)
Definition ErrorHandler_func (errLogger : Entry)
    (conn : option Conn) (sub : option Subscription) (natsErr : option error)
  : M unit :=
  let err := natsErr in
  s ← deref sub;
  status ← Conn_Status conn;
  let l := WithFields errLogger
             (<["subject" := VString (Subject s)]>
              (<["group" := VString (Queue s)]>
               (<["conn_status" := VStatus status]> ∅))) in
  '(l, err) ←
    (if decide (err = Some ErrSlowConsumer) then
       '(pendingMsgs, _, perr) ← sub_Pending s;
       match perr with
       | Some e => mret (l, perr)
       | None => mret (WithField l "pending_messages" (VInt pendingMsgs), err)
       end
     else mret (l, err));
  Entry_Error (WithError l err) ("Error while consuming from " +:+ Subject s).

(** [func ErrorHandler(log *logrus.Entry) nats.ErrHandler] *)
Definition ErrorHandler (log : Entry) : ErrHandler :=
  {| errLogger := WithField log "component" (VString "error-logger") |}.

(** Calling a handler. *)
Definition call_ErrHandler (h : ErrHandler)
    (conn : option Conn) (sub : option Subscription) (natsErr : option error)
  : M unit :=
  ErrorHandler_func (errLogger h) conn sub natsErr.

(** [func ConfigureNatsConnection(config *NatsConfig, log *logrus.Entry) ( *nats.Conn, error )] *)
Definition ConfigureNatsConnection (config : option loc) (log : Entry)
  : M (option Conn * option error) :=
  match config with
  | None =>
      Entry_Debug log "Skipping nats connection because there is no config";;
      mret (None, None)
  | Some _ =>
      '(nc, err) ← ConnectToNats config (Some (ErrorHandler log));
      match err with
      | Some e => mret (None, Some e)
      | None =>
          cfg ← load config;
          (if decide (LogsSubject cfg ≠ "") then
             emit (EvAddHook nc (LogsSubject cfg));;
             Entry_Debug (WithField log "subject" (VString (LogsSubject cfg)))
                         "Configured nats hook for logrus"
           else mret tt);;
          mret (nc, None)
      end
  end.

End Messaging.

(** [func (config *NatsConfig) Fields() logrus.Fields] *)
Definition Fields (config : option loc) : M (gmap string FieldValue) :=
  cfg ← load config;
  let f : gmap string FieldValue :=
    <["logs_subject" := VString (LogsSubject cfg)]>
      (<["servers" := VString (strings_Join (Servers cfg) ",")]> ∅) in
  f ← match TLS cfg with
      | Some t =>
          let f := <["ca_files" := VString (strings_Join (CAFiles t) ",")]> f in
          let f := <["key_file" := VString (KeyFile t)]> f in
          let f := <["cert_file" := VString (CertFile t)]> f in
          mret f
      | None => mret f
      end;
  mret f.


(** ** Observing a call *)

(** The calls a computation makes when run from [w], its return value and
    the world it leaves. *)
Definition run_world {A : Type} (m : M A) (w : World) : World :=
  match m w with
  | Returned _ w' => w'
  | Panicked w' => w'
  end.

Definition run_result {A : Type} (m : M A) (w : World) : option A :=
  match m w with
  | Returned a _ => Some a
  | Panicked _ => None
  end.

Definition run_events {A : Type} (m : M A) (w : World) : list Event :=
  drop (length (trace w)) (trace (run_world m w)).

(** The server strings and option lists handed to [nats.Connect]. *)
Definition connect_calls (evs : list Event) : list (string * list nats_Option) :=
  omap (λ ev, match ev with
              | EvConnect url options => Some (url, options)
              | _ => None
              end) evs.

(** The address list as the spec words it: one [scheme://host:port] per
    endpoint, in order, joined with commas. *)
Definition endpoint_address (ep : Endpoint) : string :=
  "nats://" +:+ Target ep +:+ ":" +:+ pretty (Port ep).

Definition comma_join (servers : list string) : string :=
  String.concat "," servers.

(** ** Vocabulary of the statements *)

Definition add_events (w : World) (evs : list Event) : World :=
  set_trace w (trace w ++ evs).

(** The discovery block does not return early: it is skipped, or the lookup
    gives no error. *)
Definition discovery_ok (ext : Externals) (cfg : NatsConfig) : Prop :=
  DiscoveryName cfg = "" ∨ (DiscoverEndpoints ext (DiscoveryName cfg)).2 = None.

Definition discovery_events (cfg : NatsConfig) : list Event :=
  if decide (DiscoveryName cfg ≠ "")
  then [EvDiscoverEndpoints (DiscoveryName cfg)]
  else [].

(** The value of [config.Servers] once the discovery block is over. *)
Definition resolved_Servers (ext : Externals) (cfg : NatsConfig) : list string :=
  if decide (DiscoveryName cfg ≠ "")
  then map endpoint_address (DiscoverEndpoints ext (DiscoveryName cfg)).1
  else Servers cfg.

Definition resolved_world (ext : Externals) (l : loc) (cfg : NatsConfig) (w : World) : World :=
  if decide (DiscoveryName cfg ≠ "")
  then set_configs w (<[l := set_Servers cfg (resolved_Servers ext cfg)]> (configs w))
  else w.

(** The TLS block does not return early: it is skipped, or the builder gives
    no error. *)
Definition tls_builds (ext : Externals) (cfg : NatsConfig) : Prop :=
  match TLS cfg with
  | Some t => (TLSConfig ext t).2 = None
  | None => True
  end.

Definition tls_events (cfg : NatsConfig) : list Event :=
  match TLS cfg with
  | Some t => [EvTLSConfig t]
  | None => []
  end.

Definition tls_options (ext : Externals) (cfg : NatsConfig) : list nats_Option :=
  match TLS cfg with
  | Some t =>
      match (TLSConfig ext t).1 with
      | Some c => [nats_Secure c]
      | None => []
      end
  | None => []
  end.

Definition handler_options (errHandler : option ErrHandler) : list nats_Option :=
  match errHandler with
  | Some h => [nats_ErrorHandler h]
  | None => []
  end.

(** The connect calls of one [ConnectToNats]. *)
Definition ConnectToNats_calls (ext : Externals) (config : option loc)
    (errHandler : option ErrHandler) (w : World) : list (string * list nats_Option) :=
  connect_calls (run_events (ConnectToNats ext config errHandler) w).

(** The three ways a call on a valid pointer ends. *)
Inductive ConnectToNats_end (ext : Externals) (w : World) (l : loc)
    (cfg : NatsConfig) (errHandler : option ErrHandler) : Prop :=
  | discovery_failed endpoints e :
      DiscoveryName cfg ≠ "" →
      DiscoverEndpoints ext (DiscoveryName cfg) = (endpoints, Some e) →
      ConnectToNats ext (Some l) errHandler w
      = Returned (None, Some e) (add_events w [EvDiscoverEndpoints (DiscoveryName cfg)]) →
      ConnectToNats_end ext w l cfg errHandler
  | tls_failed t c e :
      discovery_ok ext cfg →
      TLS cfg = Some t →
      TLSConfig ext t = (c, Some e) →
      ConnectToNats ext (Some l) errHandler w
      = Returned (None, Some e)
          (add_events (resolved_world ext l cfg w)
                      (discovery_events cfg ++ [EvTLSConfig t])) →
      ConnectToNats_end ext w l cfg errHandler
  | connect_called :
      discovery_ok ext cfg →
      tls_builds ext cfg →
      ConnectToNats ext (Some l) errHandler w
      = Returned (Connect ext (strings_Join (resolved_Servers ext cfg) ",")
                    (tls_options ext cfg ++ handler_options errHandler))
          (add_events (resolved_world ext l cfg w)
             (discovery_events cfg ++ tls_events cfg
              ++ [EvConnect (strings_Join (resolved_Servers ext cfg) ",")
                    (tls_options ext cfg ++ handler_options errHandler)])) →
      ConnectToNats_end ext w l cfg errHandler.

(** The keys the error handler stores in every record. *)
Definition handler_keys : list string :=
  ["component"; "subject"; "group"; "conn_status"; "error"].

(** The fields the handler stores first, and its message. *)
Definition context_fields (ext : Externals) (c : Conn) (s : Subscription)
  : gmap string FieldValue :=
  <["subject" := VString (Subject s)]>
    (<["group" := VString (Queue s)]>
       (<["conn_status" := VStatus (conn_Status ext c)]> ∅)).

Definition consuming_message (s : Subscription) : string :=
  "Error while consuming from " +:+ Subject s.

Definition skip_record (log : Entry) : Event :=
  EvLog DebugLevel (Data log) "Skipping nats connection because there is no config".

(** [n] calls of [ConfigureNatsConnection(nil, log)] in a row. *)
Fixpoint after_nil_calls (ext : Externals) (log : Entry) (n : nat) (w : World) : World :=
  match n with
  | O => w
  | S n => run_world (ConfigureNatsConnection ext None log) (after_nil_calls ext log n w)
  end.

(** ** Sample inputs *)

Definition sample_endpoints : list Endpoint :=
  [ {| Target := "h1"; Port := 4222 |}; {| Target := "h2"; Port := 4223 |} ].

Definition sample_tls : tls_Config :=
  {| CAFiles := ["ca.pem"]; CertFile := "cert.pem"; KeyFile := "key.pem" |}.

(** Collaborators that fail with the errors given, and otherwise find two
    endpoints, build no TLS settings, connect, and report 42 pending
    messages. *)
Definition sample_ext_with (discovery_err tls_err connect_err pending_err : option error)
  : Externals :=
  {| DiscoverEndpoints := λ _,
       (if discovery_err is Some _ then [] else sample_endpoints, discovery_err);
     TLSConfig := λ _, (None, tls_err);
     Connect := λ _ _,
       (if connect_err is Some _ then None else Some (ConnHandle 1), connect_err);
     conn_Status := λ _, 1;
     Pending := λ _, (if pending_err is Some _ then -1 else 42, 1024, pending_err) |}.

Definition sample_ext : Externals := sample_ext_with None None None None.

Definition sample_error : error := errorString "dial tcp: i/o timeout".

Definition sample_explicit : NatsConfig :=
  {| TLS := Some sample_tls; DiscoveryName := "";
     Servers := ["nats://a:4222"; "nats://b:4222"; "nats://a:4222"];
     LogsSubject := "" |}.

Definition sample_discovered : NatsConfig :=
  {| TLS := Some sample_tls; DiscoveryName := "nats.service";
     Servers := ["nats://old:4222"];
     LogsSubject := "logs" |}.

Definition sample_world (cfg : NatsConfig) : World :=
  {| configs := {[ 1%positive := cfg ]}; trace := [] |}.

Definition sample_sub : Subscription :=
  {| Subject := "orders"; Queue := "workers"; sid := 7 |}.

Definition sample_log : Entry := {| Data := {[ "app" := VString "api" ]} |}.

(** ** Further vocabulary *)

(** The other calls of a run, by kind. *)
Definition discovery_calls (evs : list Event) : list string :=
  omap (λ ev, match ev with
              | EvDiscoverEndpoints serviceName => Some serviceName
              | _ => None
              end) evs.

Definition tls_calls (evs : list Event) : list tls_Config :=
  omap (λ ev, match ev with
              | EvTLSConfig t => Some t
              | _ => None
              end) evs.

Definition hook_calls (evs : list Event) : list (option Conn * string) :=
  omap (λ ev, match ev with
              | EvAddHook nc subject => Some (nc, subject)
              | _ => None
              end) evs.

Definition pending_calls (evs : list Event) : list Subscription :=
  omap (λ ev, match ev with
              | EvPending sub => Some sub
              | _ => None
              end) evs.

(** What [ConfigureNatsConnection] does after a successful connect. *)
Definition hook_events (log : Entry) (nc : option Conn) (cfg : NatsConfig) : list Event :=
  if decide (LogsSubject cfg ≠ "")
  then [EvAddHook nc (LogsSubject cfg);
        EvLog DebugLevel
          (Data (WithField log "subject" (VString (LogsSubject cfg))))
          "Configured nats hook for logrus"]
  else [].

(** The keys of [Fields]. *)
Definition config_keys : list string :=
  ["logs_subject"; "servers"; "ca_files"; "key_file"; "cert_file"].

(** [s] has no character [c]. *)
Fixpoint char_free (c : Ascii.ascii) (s : string) : bool :=
  match s with
  | EmptyString => true
  | String c' s' => if decide (c = c') then false else char_free c s'
  end.

(** A pointer is nil or points to a config in memory. *)
Definition valid_pointer (w : World) (config : option loc) : Prop :=
  match config with
  | Some l => is_Some (configs w !! l)
  | None => True
  end.

(** * Proofs *)

(** ** strings.Join and the URL loop *)

Lemma append_assoc (a b c : string) : (a +:+ b) +:+ c = a +:+ b +:+ c.
Proof.
  induction a as [|ch a IH]; [done|].
  change (String ch ((a +:+ b) +:+ c) = String ch (a +:+ b +:+ c)).
  by f_equal.
Qed.

Lemma concat_cons_append (sep a b : string) (l : list string) :
  String.concat sep ((a +:+ sep +:+ b) :: l) = a +:+ sep +:+ String.concat sep (b :: l).
Proof.
  destruct l as [|c l]; [done|].
  change (((a +:+ sep +:+ b) +:+ sep +:+ String.concat sep (c :: l))
          = a +:+ sep +:+ b +:+ sep +:+ String.concat sep (c :: l)).
  by rewrite !append_assoc.
Qed.

Lemma Join_loop (sep s : string) (rest : list string) :
  fold_left (λ b s', b +:+ sep +:+ s') rest s = String.concat sep (s :: rest).
Proof.
  revert s. induction rest as [|y rest IH]; intros s; [done|].
  cbn [fold_left]. rewrite IH. apply concat_cons_append.
Qed.

Lemma strings_Join_concat (elems : list string) (sep : string) :
  strings_Join elems sep = String.concat sep elems.
Proof.
  destruct elems as [|s [|y rest]]; [done..|].
  unfold strings_Join. apply Join_loop.
Qed.

Lemma natsURLs_loop (endpoints : list Endpoint) (acc : list string) :
  fold_left
    (λ natsURLs endpoint,
       natsURLs ++ [Sprintf_nats_url (Target endpoint) (Port endpoint)])
    endpoints acc
  = acc ++ map endpoint_address endpoints.
Proof.
  revert acc. induction endpoints as [|ep eps IH]; intros acc.
  - by rewrite app_nil_r.
  - cbn [fold_left map]. rewrite IH, <- app_assoc. done.
Qed.

(** ** Worlds and traces *)

Lemma add_events_nil (w : World) : add_events w [] = w.
Proof. destruct w. unfold add_events, set_trace. cbn. by rewrite app_nil_r. Qed.

Lemma trace_resolved_world (ext : Externals) (l : loc) (cfg : NatsConfig) (w : World) :
  trace (resolved_world ext l cfg w) = trace w.
Proof. unfold resolved_world. by case_decide. Qed.

Lemma run_events_Returned {A : Type} (m : M A) (w w' : World) (a : A) (evs : list Event) :
  m w = Returned a w' → trace w' = trace w ++ evs → run_events m w = evs.
Proof.
  intros Hrun Htrace. unfold run_events, run_world.
  rewrite Hrun, Htrace. apply drop_app_length.
Qed.

Lemma run_events_Panicked {A : Type} (m : M A) (w : World) :
  m w = Panicked w → run_events m w = [].
Proof.
  intros Hrun. unfold run_events, run_world. rewrite Hrun. apply drop_all.
Qed.

Lemma run_result_Returned {A : Type} (m : M A) (w w' : World) (a : A) :
  m w = Returned a w' → run_result m w = Some a.
Proof. intros Hrun. unfold run_result. by rewrite Hrun. Qed.

Lemma run_world_Returned {A : Type} (m : M A) (w w' : World) (a : A) :
  m w = Returned a w' → run_world m w = w'.
Proof. intros Hrun. unfold run_world. by rewrite Hrun. Qed.

Lemma connect_calls_app (evs1 evs2 : list Event) :
  connect_calls (evs1 ++ evs2) = connect_calls evs1 ++ connect_calls evs2.
Proof. apply omap_app. Qed.

Lemma connect_calls_discovery (cfg : NatsConfig) :
  connect_calls (discovery_events cfg) = [].
Proof. unfold discovery_events. by case_decide. Qed.

Lemma connect_calls_tls (cfg : NatsConfig) : connect_calls (tls_events cfg) = [].
Proof. unfold tls_events. by destruct (TLS cfg). Qed.

(** ** Running ConnectToNats *)

Ltac unfold_go :=
  unfold ConfigureNatsConnection, ConnectToNats, discoverNatsURLs, ServerString,
    call_ErrHandler, ErrorHandler_func, Conn_Status, Entry_Error, Entry_Debug,
    sub_Pending, nats_Connect, tls_TLSConfig, discovery_DiscoverEndpoints,
    store_Servers, load, deref, emit, panic;
  unfold mbind, M_bind, mret, M_ret.

Ltac world_eq :=
  unfold add_events, set_trace, set_configs; cbn;
  rewrite <- ?app_assoc; reflexivity.

Section Runs.

Context (ext : Externals).
Implicit Types (w : World) (l : loc) (cfg : NatsConfig).

Lemma ConnectToNats_nil errHandler w :
  ConnectToNats ext None errHandler w = Panicked w.
Proof. done. Qed.

Lemma ConnectToNats_discovery_fails w l cfg errHandler endpoints e :
  configs w !! l = Some cfg →
  DiscoveryName cfg ≠ "" →
  DiscoverEndpoints ext (DiscoveryName cfg) = (endpoints, Some e) →
  ConnectToNats ext (Some l) errHandler w
  = Returned (None, Some e) (add_events w [EvDiscoverEndpoints (DiscoveryName cfg)]).
Proof.
  intros Hcfg Hname Hdisc. unfold_go. rewrite Hcfg.
  case_decide; [|done]. by rewrite Hdisc.
Qed.

(** Runs the discovery block when it does not return early. *)
Ltac discovery_block Hcfg Hdisc :=
  unfold_go; rewrite Hcfg;
  unfold discovery_ok, discovery_events, resolved_world, resolved_Servers in *;
  case_decide;
  [ destruct Hdisc as [?|Hdisc]; [done|];
    destruct (DiscoverEndpoints ext (DiscoveryName _)) as [? [?|]];
    [done|]; cbn; rewrite Hcfg; cbn; rewrite lookup_insert_eq;
    rewrite natsURLs_loop; cbn
  | rewrite Hcfg ].

Lemma ConnectToNats_tls_fails w l cfg errHandler t c e :
  configs w !! l = Some cfg →
  discovery_ok ext cfg →
  TLS cfg = Some t →
  TLSConfig ext t = (c, Some e) →
  ConnectToNats ext (Some l) errHandler w
  = Returned (None, Some e)
             (add_events (resolved_world ext l cfg w)
                         (discovery_events cfg ++ [EvTLSConfig t])).
Proof.
  intros Hcfg Hdisc Htls Hbuild.
  discovery_block Hcfg Hdisc; rewrite Htls, Hbuild; cbn; world_eq.
Qed.

Lemma ConnectToNats_connects w l cfg errHandler :
  configs w !! l = Some cfg →
  discovery_ok ext cfg →
  tls_builds ext cfg →
  ConnectToNats ext (Some l) errHandler w
  = Returned (Connect ext (strings_Join (resolved_Servers ext cfg) ",")
                (tls_options ext cfg ++ handler_options errHandler))
             (add_events (resolved_world ext l cfg w)
                (discovery_events cfg ++ tls_events cfg
                 ++ [EvConnect (strings_Join (resolved_Servers ext cfg) ",")
                       (tls_options ext cfg ++ handler_options errHandler)])).
Proof.
  intros Hcfg Hdisc Hbuild.
  discovery_block Hcfg Hdisc;
  unfold tls_builds, tls_options, tls_events in *;
  (destruct (TLS cfg) as [t|]; [destruct (TLSConfig ext t) as [[c|] [e'|]]|]);
  simplify_eq/=; rewrite ?lookup_insert_eq, ?Hcfg; cbn;
  destruct errHandler; cbn; world_eq.
Qed.

Lemma ConnectToNats_cases w l cfg errHandler :
  configs w !! l = Some cfg → ConnectToNats_end ext w l cfg errHandler.
Proof.
  intros Hcfg.
  assert (discovery_ok ext cfg ∨
          ∃ endpoints e, DiscoveryName cfg ≠ "" ∧
            DiscoverEndpoints ext (DiscoveryName cfg) = (endpoints, Some e))
    as [Hok|(endpoints & e & Hname & Hdisc)].
  { unfold discovery_ok. destruct (decide (DiscoveryName cfg = "")) as [|Hname]; [by auto|].
    destruct (DiscoverEndpoints ext (DiscoveryName cfg)) as [endpoints [e|]] eqn:Hdisc;
      [right; by eauto|left; by right]. }
  - destruct (TLS cfg) as [t|] eqn:Htls.
    + destruct (TLSConfig ext t) as [c [e|]] eqn:Hbuild.
      * eapply tls_failed; eauto using ConnectToNats_tls_fails.
      * apply connect_called; [done| |apply ConnectToNats_connects; [done..|]];
          unfold tls_builds; by rewrite Htls, Hbuild.
    + apply connect_called; [done| |apply ConnectToNats_connects; [done..|]];
        unfold tls_builds; by rewrite Htls.
  - eapply discovery_failed; eauto using ConnectToNats_discovery_fails.
Qed.

(** The connect calls of a run: none after an early return, otherwise the
    one with the joined [config.Servers] of that moment. *)
Lemma ConnectToNats_calls_resolved w l cfg errHandler :
  configs w !! l = Some cfg →
  discovery_ok ext cfg →
  is_Some (run_result (ConnectToNats ext (Some l) errHandler) w)
  ∧ (∀ url options, (url, options) ∈ ConnectToNats_calls ext (Some l) errHandler w →
       url = comma_join (resolved_Servers ext cfg))
  ∧ (tls_builds ext cfg →
       ConnectToNats_calls ext (Some l) errHandler w
       = [(comma_join (resolved_Servers ext cfg),
           tls_options ext cfg ++ handler_options errHandler)]).
Proof.
  intros Hcfg Hok. unfold ConnectToNats_calls, comma_join.
  destruct (ConnectToNats_cases w l cfg errHandler Hcfg)
    as [endpoints e Hname Hdisc Hrun|t c e _ Htls Hbuild Hrun|_ Hbuild Hrun].
  - destruct Hok as [?|Hok]; [done|]. by rewrite Hdisc in Hok.
  - erewrite (run_result_Returned _ _ _ _ Hrun).
    erewrite (run_events_Returned _ _ _ _ _ Hrun);
      [|cbn; by rewrite trace_resolved_world].
    rewrite connect_calls_app, connect_calls_discovery. cbn.
    split; [by eauto|]. split; [by intros ?? ?%elem_of_nil|].
    unfold tls_builds. rewrite Htls, Hbuild. done.
  - erewrite (run_result_Returned _ _ _ _ Hrun).
    erewrite (run_events_Returned _ _ _ _ _ Hrun);
      [|cbn; by rewrite trace_resolved_world].
    rewrite !connect_calls_app, connect_calls_discovery, connect_calls_tls. cbn.
    rewrite strings_Join_concat.
    split; [by eauto|]. split; [|done].
    intros url options Hin%list_elem_of_singleton. by simplify_eq.
Qed.

End Runs.

(** ** Server strings *)

(** C5.  With an empty [DiscoveryName], [ConnectToNats] returns, every
    connect call it makes gets the comma-join of [config.Servers] as the
    list was at the start, elements and order untouched, and it makes that
    call unless the TLS builder fails. *)
Theorem ConnectToNats_explicit_server_string
    (ext : Externals) (w : World) (l : loc) (cfg : NatsConfig)
    (errHandler : option ErrHandler) :
  configs w !! l = Some cfg →
  DiscoveryName cfg = "" →
  is_Some (run_result (ConnectToNats ext (Some l) errHandler) w)
  ∧ (∀ url options, (url, options) ∈ ConnectToNats_calls ext (Some l) errHandler w →
       url = comma_join (Servers cfg))
  ∧ (tls_builds ext cfg →
       ∃ options, ConnectToNats_calls ext (Some l) errHandler w
                  = [(comma_join (Servers cfg), options)]).
Proof.
  intros Hcfg Hname.
  destruct (ConnectToNats_calls_resolved ext w l cfg errHandler Hcfg)
    as (Hret & Hall & Hcall); [by left|].
  assert (resolved_Servers ext cfg = Servers cfg) as Hservers.
  { unfold resolved_Servers. by case_decide. }
  rewrite Hservers in *. eauto.
Qed.

Lemma ConnectToNats_explicit_server_string_witness :
  is_Some (run_result (ConnectToNats sample_ext (Some 1%positive) None)
             (sample_world sample_explicit))
  ∧ (∀ url options,
       (url, options) ∈ ConnectToNats_calls sample_ext (Some 1%positive) None
                          (sample_world sample_explicit) →
       url = "nats://a:4222,nats://b:4222,nats://a:4222")
  ∧ (tls_builds sample_ext sample_explicit →
       ∃ options, ConnectToNats_calls sample_ext (Some 1%positive) None
                    (sample_world sample_explicit)
                  = [("nats://a:4222,nats://b:4222,nats://a:4222", options)]).
Proof.
  apply (ConnectToNats_explicit_server_string sample_ext
           (sample_world sample_explicit) 1%positive sample_explicit None);
    reflexivity.
Defined.

(** C1.  With a non-empty [DiscoveryName] and a lookup that succeeds with
    the endpoints [(h1,p1), (h2,p2), ...], [ConnectToNats] returns, every
    connect call it makes gets ["nats://h1:p1,nats://h2:p2,..."], whatever
    [config.Servers] held, and it makes that call unless the TLS builder
    fails. *)
Theorem ConnectToNats_discovered_server_string
    (ext : Externals) (w : World) (l : loc) (cfg : NatsConfig)
    (errHandler : option ErrHandler) (endpoints : list Endpoint) :
  configs w !! l = Some cfg →
  DiscoveryName cfg ≠ "" →
  DiscoverEndpoints ext (DiscoveryName cfg) = (endpoints, None) →
  is_Some (run_result (ConnectToNats ext (Some l) errHandler) w)
  ∧ (∀ url options, (url, options) ∈ ConnectToNats_calls ext (Some l) errHandler w →
       url = comma_join (map endpoint_address endpoints))
  ∧ (tls_builds ext cfg →
       ∃ options, ConnectToNats_calls ext (Some l) errHandler w
                  = [(comma_join (map endpoint_address endpoints), options)]).
Proof.
  intros Hcfg Hname Hdisc.
  destruct (ConnectToNats_calls_resolved ext w l cfg errHandler Hcfg)
    as (Hret & Hall & Hcall); [right; by rewrite Hdisc|].
  assert (resolved_Servers ext cfg = map endpoint_address endpoints) as Hservers.
  { unfold resolved_Servers. case_decide; [|done]. by rewrite Hdisc. }
  rewrite Hservers in *. eauto.
Qed.

Lemma ConnectToNats_discovered_server_string_witness :
  is_Some (run_result (ConnectToNats sample_ext (Some 1%positive) None)
             (sample_world sample_discovered))
  ∧ (∀ url options,
       (url, options) ∈ ConnectToNats_calls sample_ext (Some 1%positive) None
                          (sample_world sample_discovered) →
       url = "nats://h1:4222,nats://h2:4223")
  ∧ (tls_builds sample_ext sample_discovered →
       ∃ options, ConnectToNats_calls sample_ext (Some 1%positive) None
                    (sample_world sample_discovered)
                  = [("nats://h1:4222,nats://h2:4223", options)]).
Proof.
  apply (ConnectToNats_discovered_server_string sample_ext
           (sample_world sample_discovered) 1%positive sample_discovered None
           sample_endpoints);
    [reflexivity|discriminate|reflexivity].
Defined.

(** ** The TLS block *)

(** C7.  With a non-nil [config.TLS] whose builder returns neither settings
    nor an error, and a discovery block that does not return early, the call
    goes on to [nats.Connect]: the options it passes hold no [nats.Secure],
    only the error handler if there is one, and the call returns what
    [nats.Connect] returns. *)
Theorem ConnectToNats_empty_tls_settings
    (ext : Externals) (w : World) (l : loc) (cfg : NatsConfig)
    (errHandler : option ErrHandler) (t : tls_Config) :
  configs w !! l = Some cfg →
  discovery_ok ext cfg →
  TLS cfg = Some t →
  TLSConfig ext t = (None, None) →
  ∃ url options,
    run_result (ConnectToNats ext (Some l) errHandler) w = Some (Connect ext url options)
    ∧ run_events (ConnectToNats ext (Some l) errHandler) w
      = discovery_events cfg ++ [EvTLSConfig t; EvConnect url options]
    ∧ options = handler_options errHandler
    ∧ ∀ tlsConfig, nats_Secure tlsConfig ∉ options.
Proof.
  intros Hcfg Hok Htls Hbuild.
  assert (tls_builds ext cfg) as Hbuilds.
  { unfold tls_builds. by rewrite Htls, Hbuild. }
  pose proof (ConnectToNats_connects ext w l cfg errHandler Hcfg Hok Hbuilds) as Hrun.
  assert (tls_options ext cfg = []) as Hopts.
  { unfold tls_options. by rewrite Htls, Hbuild. }
  assert (tls_events cfg = [EvTLSConfig t]) as Hevs.
  { unfold tls_events. by rewrite Htls. }
  rewrite Hopts, Hevs in Hrun. cbn [app] in Hrun.
  eexists _, _. split; [by apply (run_result_Returned _ _ _ _ Hrun)|].
  split; [apply (run_events_Returned _ _ _ _ _ Hrun); cbn;
          by rewrite trace_resolved_world|].
  split; [done|].
  intros tlsConfig. destruct errHandler; cbn;
    [by intros ?%list_elem_of_singleton|apply not_elem_of_nil].
Qed.

Lemma ConnectToNats_empty_tls_settings_witness :
  ∃ url options,
    run_result (ConnectToNats sample_ext (Some 1%positive) (Some (ErrorHandler sample_log)))
      (sample_world sample_discovered)
    = Some (Connect sample_ext url options)
    ∧ run_events (ConnectToNats sample_ext (Some 1%positive) (Some (ErrorHandler sample_log)))
        (sample_world sample_discovered)
      = discovery_events sample_discovered ++ [EvTLSConfig sample_tls; EvConnect url options]
    ∧ options = handler_options (Some (ErrorHandler sample_log))
    ∧ ∀ tlsConfig, nats_Secure tlsConfig ∉ options.
Proof.
  apply (ConnectToNats_empty_tls_settings sample_ext (sample_world sample_discovered)
           1%positive sample_discovered (Some (ErrorHandler sample_log)) sample_tls);
    [reflexivity|right; reflexivity|reflexivity|reflexivity].
Defined.

(** ** Errors *)

Lemma ConfigureNatsConnection_nil (ext : Externals) (log : Entry) (w : World) :
  ConfigureNatsConnection ext None log w
  = Returned (None, None) (add_events w [skip_record log]).
Proof. done. Qed.

Lemma ConfigureNatsConnection_error (ext : Externals) (l : loc) (log : Entry)
    (w w' : World) (nc : option Conn) (e : error) :
  ConnectToNats ext (Some l) (Some (ErrorHandler log)) w = Returned (nc, Some e) w' →
  ConfigureNatsConnection ext (Some l) log w = Returned (None, Some e) w'.
Proof.
  intros Hrun. unfold ConfigureNatsConnection, mbind, M_bind. by rewrite Hrun.
Qed.

(** The connect call of a run and what the run returns. *)
Lemma ConnectToNats_call_result (ext : Externals) (w : World) (l : loc)
    (cfg : NatsConfig) (errHandler : option ErrHandler)
    (url : string) (options : list nats_Option) :
  configs w !! l = Some cfg →
  (url, options) ∈ ConnectToNats_calls ext (Some l) errHandler w →
  ∃ w', ConnectToNats ext (Some l) errHandler w = Returned (Connect ext url options) w'.
Proof.
  intros Hcfg. unfold ConnectToNats_calls.
  destruct (ConnectToNats_cases ext w l cfg errHandler Hcfg)
    as [endpoints e Hname Hdisc Hrun|t c e _ Htls Hbuild Hrun|_ Hbuild Hrun];
    (erewrite (run_events_Returned _ _ _ _ _ Hrun);
      [|cbn; by rewrite ?trace_resolved_world]);
    rewrite ?connect_calls_app, ?connect_calls_discovery, ?connect_calls_tls; cbn.
  - by intros ?%elem_of_nil.
  - by intros ?%elem_of_nil.
  - intros Hin%list_elem_of_singleton. simplify_eq. eauto.
Qed.

(** C2.  On a valid config, a failing discovery lookup and a failing TLS
    builder each make [ConnectToNats] return that very error and a nil
    connection.  A failing [nats.Connect] makes it return the pair
    [nats.Connect] returned: that very error, with the nil connection that
    [nats.Connect] gives next to an error.  In the three cases
    [ConfigureNatsConnection] returns the same error and a nil connection. *)
Theorem failure_returned_unmodified
    (ext : Externals) (w : World) (l : loc) (cfg : NatsConfig)
    (errHandler : option ErrHandler) (log : Entry) (e : error) :
  configs w !! l = Some cfg →
  (∀ endpoints,
     DiscoveryName cfg ≠ "" →
     DiscoverEndpoints ext (DiscoveryName cfg) = (endpoints, Some e) →
     run_result (ConnectToNats ext (Some l) errHandler) w = Some (None, Some e)
     ∧ run_result (ConfigureNatsConnection ext (Some l) log) w = Some (None, Some e))
  ∧ (∀ t tlsConfig,
       discovery_ok ext cfg →
       TLS cfg = Some t →
       TLSConfig ext t = (tlsConfig, Some e) →
       run_result (ConnectToNats ext (Some l) errHandler) w = Some (None, Some e)
       ∧ run_result (ConfigureNatsConnection ext (Some l) log) w = Some (None, Some e))
  ∧ (∀ url options nc,
       (url, options) ∈ ConnectToNats_calls ext (Some l) errHandler w →
       Connect ext url options = (nc, Some e) →
       run_result (ConnectToNats ext (Some l) errHandler) w = Some (nc, Some e))
  ∧ (∀ url options nc,
       (url, options) ∈ ConnectToNats_calls ext (Some l) (Some (ErrorHandler log)) w →
       Connect ext url options = (nc, Some e) →
       run_result (ConfigureNatsConnection ext (Some l) log) w = Some (None, Some e)).
Proof.
  intros Hcfg. repeat split.
  - eapply run_result_Returned, ConnectToNats_discovery_fails; eauto.
  - eapply run_result_Returned, ConfigureNatsConnection_error,
      ConnectToNats_discovery_fails; eauto.
  - eapply run_result_Returned, ConnectToNats_tls_fails; eauto.
  - eapply run_result_Returned, ConfigureNatsConnection_error,
      ConnectToNats_tls_fails; eauto.
  - intros url options nc Hcall Hfail.
    destruct (ConnectToNats_call_result _ _ _ _ _ _ _ Hcfg Hcall) as [w' Hrun].
    rewrite Hfail in Hrun. by eapply run_result_Returned.
  - intros url options nc Hcall Hfail.
    destruct (ConnectToNats_call_result _ _ _ _ _ _ _ Hcfg Hcall) as [w' Hrun].
    rewrite Hfail in Hrun.
    by eapply run_result_Returned, ConfigureNatsConnection_error.
Qed.

Lemma failure_returned_unmodified_witness :
  (run_result (ConnectToNats (sample_ext_with (Some sample_error) None None None)
                 (Some 1%positive) None) (sample_world sample_discovered)
   = Some (None, Some sample_error)
   ∧ run_result (ConfigureNatsConnection (sample_ext_with (Some sample_error) None None None)
                   (Some 1%positive) sample_log) (sample_world sample_discovered)
     = Some (None, Some sample_error))
  ∧ (run_result (ConnectToNats (sample_ext_with None (Some sample_error) None None)
                   (Some 1%positive) None) (sample_world sample_discovered)
     = Some (None, Some sample_error)
     ∧ run_result (ConfigureNatsConnection (sample_ext_with None (Some sample_error) None None)
                     (Some 1%positive) sample_log) (sample_world sample_discovered)
       = Some (None, Some sample_error))
  ∧ run_result (ConnectToNats (sample_ext_with None None (Some sample_error) None)
                  (Some 1%positive) None) (sample_world sample_discovered)
    = Some (None, Some sample_error)
  ∧ run_result (ConfigureNatsConnection (sample_ext_with None None (Some sample_error) None)
                  (Some 1%positive) sample_log) (sample_world sample_discovered)
    = Some (None, Some sample_error).
Proof.
  destruct (failure_returned_unmodified
              (sample_ext_with (Some sample_error) None None None)
              (sample_world sample_discovered) 1%positive sample_discovered None
              sample_log sample_error eq_refl) as (Hdiscovery & _).
  destruct (failure_returned_unmodified
              (sample_ext_with None (Some sample_error) None None)
              (sample_world sample_discovered) 1%positive sample_discovered None
              sample_log sample_error eq_refl) as (_ & Htls & _).
  destruct (failure_returned_unmodified
              (sample_ext_with None None (Some sample_error) None)
              (sample_world sample_discovered) 1%positive sample_discovered None
              sample_log sample_error eq_refl) as (_ & _ & Hconnect & Hconfigure).
  split; [|split; [|split]].
  - apply (Hdiscovery []); [discriminate|reflexivity].
  - apply (Htls sample_tls None); [right; reflexivity|reflexivity|reflexivity].
  - apply (Hconnect "nats://h1:4222,nats://h2:4223" [] None);
      [vm_compute; left|reflexivity].
  - apply (Hconfigure "nats://h1:4222,nats://h2:4223"
             [nats_ErrorHandler (ErrorHandler sample_log)] None);
      [vm_compute; left|reflexivity].
Defined.

(** ** The caller's config *)

Lemma set_Servers_same (cfg : NatsConfig) : set_Servers cfg (Servers cfg) = cfg.
Proof. by destruct cfg. Qed.

Lemma lookup_resolved_world (ext : Externals) (l : loc) (cfg : NatsConfig) (w : World) :
  configs w !! l = Some cfg →
  configs (resolved_world ext l cfg w) !! l
  = Some (set_Servers cfg (resolved_Servers ext cfg)).
Proof.
  intros Hcfg. unfold resolved_world, resolved_Servers. case_decide; cbn.
  - apply lookup_insert_eq.
  - by rewrite set_Servers_same.
Qed.

Lemma lookup_resolved_world_ne (ext : Externals) (l l' : loc) (cfg : NatsConfig) (w : World) :
  l' ≠ l →
  configs (resolved_world ext l cfg w) !! l' = configs w !! l'.
Proof.
  intros Hne. unfold resolved_world. case_decide; cbn; [|done].
  by apply lookup_insert_ne.
Qed.

(** C3, as stated, fails: a call with a non-empty [DiscoveryName] and a
    successful lookup leaves the discovered addresses in [config.Servers]. *)
Lemma ConnectToNats_overwrites_Servers :
  configs (sample_world sample_discovered) !! 1%positive = Some sample_discovered
  ∧ Servers sample_discovered = ["nats://old:4222"]
  ∧ Servers <$> configs (run_world (ConnectToNats sample_ext (Some 1%positive) None)
                           (sample_world sample_discovered)) !! 1%positive
    = Some ["nats://h1:4222"; "nats://h2:4223"]
  ∧ configs (run_world (ConnectToNats sample_ext (Some 1%positive) None)
               (sample_world sample_discovered)) !! 1%positive
    ≠ Some sample_discovered.
Proof.
  split; [reflexivity|]. split; [reflexivity|]. split; [reflexivity|].
  intros Heq. vm_compute in Heq. discriminate Heq.
Qed.

(** C3, amended.  After [ConnectToNats] on a valid config the three fields
    [TLS], [DiscoveryName] and [LogsSubject] are as before, and so is every
    other config in memory.  [Servers] is as before when [DiscoveryName] is
    empty or the lookup fails; when the lookup succeeds it holds the
    discovered addresses. *)
Theorem ConnectToNats_config_frame
    (ext : Externals) (w : World) (l : loc) (cfg : NatsConfig)
    (errHandler : option ErrHandler) :
  configs w !! l = Some cfg →
  ∃ cfg',
    configs (run_world (ConnectToNats ext (Some l) errHandler) w) !! l = Some cfg'
    ∧ TLS cfg' = TLS cfg
    ∧ DiscoveryName cfg' = DiscoveryName cfg
    ∧ LogsSubject cfg' = LogsSubject cfg
    ∧ (DiscoveryName cfg = "" ∨ (DiscoverEndpoints ext (DiscoveryName cfg)).2 ≠ None →
       Servers cfg' = Servers cfg)
    ∧ (DiscoveryName cfg ≠ "" →
       (DiscoverEndpoints ext (DiscoveryName cfg)).2 = None →
       Servers cfg'
       = map endpoint_address (DiscoverEndpoints ext (DiscoveryName cfg)).1)
    ∧ ∀ l', l' ≠ l →
        configs (run_world (ConnectToNats ext (Some l) errHandler) w) !! l'
        = configs w !! l'.
Proof.
  intros Hcfg.
  assert (∀ w', ConnectToNats ext (Some l) errHandler w = w' →
    discovery_ok ext cfg →
    ∀ evs r, w' = Returned r (add_events (resolved_world ext l cfg w) evs) →
    ∃ cfg',
      configs (run_world (ConnectToNats ext (Some l) errHandler) w) !! l = Some cfg'
      ∧ TLS cfg' = TLS cfg
      ∧ DiscoveryName cfg' = DiscoveryName cfg
      ∧ LogsSubject cfg' = LogsSubject cfg
      ∧ (DiscoveryName cfg = "" ∨ (DiscoverEndpoints ext (DiscoveryName cfg)).2 ≠ None →
         Servers cfg' = Servers cfg)
      ∧ (DiscoveryName cfg ≠ "" →
         (DiscoverEndpoints ext (DiscoveryName cfg)).2 = None →
         Servers cfg'
         = map endpoint_address (DiscoverEndpoints ext (DiscoveryName cfg)).1)
      ∧ ∀ l', l' ≠ l →
          configs (run_world (ConnectToNats ext (Some l) errHandler) w) !! l'
          = configs w !! l') as Hresolved.
  { intros w' Hrun Hok evs r ->.
    rewrite (run_world_Returned _ _ _ _ Hrun). cbn [add_events set_trace configs].
    exists (set_Servers cfg (resolved_Servers ext cfg)).
    split; [by apply lookup_resolved_world|]. do 3 (split; [done|]).
    unfold resolved_Servers. cbn [set_Servers Servers].
    split; [|split].
    - intros [Hname|Hfail]; case_decide; try done.
      by destruct Hok.
    - intros Hname _. by case_decide.
    - intros l' Hne. by apply lookup_resolved_world_ne. }
  destruct (ConnectToNats_cases ext w l cfg errHandler Hcfg)
    as [endpoints e Hname Hdisc Hrun|t c e Hok Htls Hbuild Hrun|Hok Hbuild Hrun];
    [|by eapply Hresolved..].
  rewrite (run_world_Returned _ _ _ _ Hrun). cbn [add_events set_trace configs].
  exists cfg. do 4 (split; [done|]). split; [done|].
  split; [|done]. intros _. by rewrite Hdisc.
Qed.

Lemma ConnectToNats_config_frame_witness :
  ∃ cfg',
    configs (run_world (ConnectToNats sample_ext (Some 1%positive) None)
               (sample_world sample_discovered)) !! 1%positive = Some cfg'
    ∧ TLS cfg' = TLS sample_discovered
    ∧ DiscoveryName cfg' = DiscoveryName sample_discovered
    ∧ LogsSubject cfg' = LogsSubject sample_discovered
    ∧ (DiscoveryName sample_discovered = ""
       ∨ (DiscoverEndpoints sample_ext (DiscoveryName sample_discovered)).2 ≠ None →
       Servers cfg' = Servers sample_discovered)
    ∧ (DiscoveryName sample_discovered ≠ "" →
       (DiscoverEndpoints sample_ext (DiscoveryName sample_discovered)).2 = None →
       Servers cfg'
       = map endpoint_address
           (DiscoverEndpoints sample_ext (DiscoveryName sample_discovered)).1)
    ∧ ∀ l', l' ≠ 1%positive →
        configs (run_world (ConnectToNats sample_ext (Some 1%positive) None)
                   (sample_world sample_discovered)) !! l'
        = configs (sample_world sample_discovered) !! l'.
Proof.
  apply (ConnectToNats_config_frame sample_ext (sample_world sample_discovered)
           1%positive sample_discovered None).
  reflexivity.
Defined.

(** ** A nil config *)

Lemma after_nil_calls_events (ext : Externals) (log : Entry) (n : nat) (w : World) :
  after_nil_calls ext log n w = add_events w (replicate n (skip_record log)).
Proof.
  induction n as [|n IH]; cbn [after_nil_calls replicate].
  - by rewrite add_events_nil.
  - rewrite IH.
    rewrite (run_world_Returned _ _ _ _ (ConfigureNatsConnection_nil ext log _)).
    unfold add_events, set_trace. cbn. f_equal.
    rewrite <- app_assoc. f_equal.
    change (replicate n (skip_record log) ++ replicate 1 (skip_record log)
            = replicate (S n) (skip_record log)).
    rewrite <- replicate_add. f_equal. lia.
Qed.

(** C6.  [ConfigureNatsConnection(nil, log)] returns a nil connection and a
    nil error, and all it does is write one debug record: no discovery
    lookup, no TLS build, no connect call, no config touched.  The same
    holds for the call that follows any number of such calls. *)
Theorem ConfigureNatsConnection_nil_config
    (ext : Externals) (log : Entry) (w : World) (n : nat) :
  run_result (ConfigureNatsConnection ext None log) (after_nil_calls ext log n w)
  = Some (None, None)
  ∧ run_events (ConfigureNatsConnection ext None log) (after_nil_calls ext log n w)
    = [skip_record log]
  ∧ configs (run_world (ConfigureNatsConnection ext None log)
               (after_nil_calls ext log n w))
    = configs w.
Proof.
  pose proof (ConfigureNatsConnection_nil ext log (after_nil_calls ext log n w)) as Hrun.
  split; [by apply (run_result_Returned _ _ _ _ Hrun)|].
  split; [by apply (run_events_Returned _ _ _ _ _ Hrun)|].
  rewrite (run_world_Returned _ _ _ _ Hrun), after_nil_calls_events. done.
Qed.

(** ** The error handler *)

Ltac solve_field :=
  unfold ErrorHandler, WithError; unfold WithField; unfold WithFields, context_fields;
  cbn [Data errLogger];
  rewrite ?lookup_union, ?lookup_insert, ?lookup_singleton, ?lookup_empty;
  repeat case_decide; simplify_eq;
  rewrite ?union_Some_l, ?(left_id_L None (∪)); try done.

Section Handler.

Context (ext : Externals).
Implicit Types (w : World) (h : ErrHandler) (c : Conn) (s : Subscription).

Lemma call_ErrHandler_nil_sub h conn natsErr w :
  call_ErrHandler ext h conn None natsErr w = Panicked w.
Proof. done. Qed.

Lemma call_ErrHandler_nil_conn h sub natsErr w :
  call_ErrHandler ext h None sub natsErr w = Panicked w.
Proof. by destruct sub. Qed.

Lemma call_ErrHandler_other h c s natsErr w :
  natsErr ≠ Some ErrSlowConsumer →
  call_ErrHandler ext h (Some c) (Some s) natsErr w
  = Returned tt
      (add_events w
         [EvLog ErrorLevel
            (Data (WithError (WithFields (errLogger h) (context_fields ext c s)) natsErr))
            (consuming_message s)]).
Proof.
  intros Hother. unfold_go. cbn. by case_decide.
Qed.

Lemma call_ErrHandler_pending h c s n bytes w :
  Pending ext s = (n, bytes, None) →
  call_ErrHandler ext h (Some c) (Some s) (Some ErrSlowConsumer) w
  = Returned tt
      (add_events w
         [EvPending s;
          EvLog ErrorLevel
            (Data (WithError
                     (WithField (WithFields (errLogger h) (context_fields ext c s))
                                "pending_messages" (VInt n))
                     (Some ErrSlowConsumer)))
            (consuming_message s)]).
Proof.
  intros Hpending. unfold_go. cbn. case_decide; [|done].
  rewrite Hpending. cbn. world_eq.
Qed.

Lemma call_ErrHandler_pending_fails h c s n bytes perr w :
  Pending ext s = (n, bytes, Some perr) →
  call_ErrHandler ext h (Some c) (Some s) (Some ErrSlowConsumer) w
  = Returned tt
      (add_events w
         [EvPending s;
          EvLog ErrorLevel
            (Data (WithError (WithFields (errLogger h) (context_fields ext c s))
                             (Some perr)))
            (consuming_message s)]).
Proof.
  intros Hpending. unfold_go. cbn. case_decide; [|done].
  rewrite Hpending. cbn. world_eq.
Qed.

(** The fields of a record built on [context_fields]. *)
Lemma record_fields log c s err :
  let data := Data (WithError (WithFields (errLogger (ErrorHandler log))
                                 (context_fields ext c s)) err) in
  data !! "subject" = Some (VString (Subject s))
  ∧ data !! "group" = Some (VString (Queue s))
  ∧ data !! "conn_status" = Some (VStatus (conn_Status ext c))
  ∧ data !! "error" = Some (VError err)
  ∧ data !! "component" = Some (VString "error-logger")
  ∧ ∀ k, k ∉ handler_keys → data !! k = Data log !! k.
Proof.
  cbv zeta. repeat split; try solve_field.
  intros k Hk. unfold handler_keys in Hk. solve_field;
    exfalso; apply Hk; eauto 6 using list_elem_of_here, list_elem_of_further.
Qed.

Lemma record_fields_pending log c s n err :
  let data := Data (WithError
                      (WithField (WithFields (errLogger (ErrorHandler log))
                                    (context_fields ext c s))
                                 "pending_messages" (VInt n)) err) in
  data !! "subject" = Some (VString (Subject s))
  ∧ data !! "group" = Some (VString (Queue s))
  ∧ data !! "conn_status" = Some (VStatus (conn_Status ext c))
  ∧ data !! "error" = Some (VError err)
  ∧ data !! "pending_messages" = Some (VInt n).
Proof. cbv zeta. repeat split; solve_field. Qed.

End Handler.

(** C9.  For an error other than [nats.ErrSlowConsumer], the handler makes
    no [Pending] call and writes one error record.  The record carries the
    subscription's subject and queue, the connection status and the error
    it was called with; its other fields are those of the logger given to
    [ErrorHandler], so the handler adds no [pending_messages]. *)
Theorem ErrorHandler_other_error
    (ext : Externals) (log : Entry) (c : Conn) (s : Subscription)
    (natsErr : option error) (w : World) :
  natsErr ≠ Some ErrSlowConsumer →
  ∃ data,
    call_ErrHandler ext (ErrorHandler log) (Some c) (Some s) natsErr w
    = Returned tt (add_events w
        [EvLog ErrorLevel data ("Error while consuming from " +:+ Subject s)])
    ∧ data !! "subject" = Some (VString (Subject s))
    ∧ data !! "group" = Some (VString (Queue s))
    ∧ data !! "conn_status" = Some (VStatus (conn_Status ext c))
    ∧ data !! "error" = Some (VError natsErr)
    ∧ data !! "pending_messages" = Data log !! "pending_messages"
    ∧ ∀ k, k ∉ handler_keys → data !! k = Data log !! k.
Proof.
  intros Hother. eexists. split; [by apply call_ErrHandler_other|].
  destruct (record_fields ext log c s natsErr) as (? & ? & ? & ? & _ & Hframe).
  do 4 (split; [done|]). split; [|done].
  apply Hframe. unfold handler_keys. rewrite !not_elem_of_cons.
  repeat split; [done..|apply not_elem_of_nil].
Qed.

Lemma ErrorHandler_other_error_witness :
  ∃ data,
    call_ErrHandler sample_ext (ErrorHandler sample_log) (Some (ConnHandle 1))
      (Some sample_sub) (Some sample_error) (sample_world sample_explicit)
    = Returned tt (add_events (sample_world sample_explicit)
        [EvLog ErrorLevel data "Error while consuming from orders"])
    ∧ data !! "subject" = Some (VString "orders")
    ∧ data !! "group" = Some (VString "workers")
    ∧ data !! "conn_status" = Some (VStatus 1)
    ∧ data !! "error" = Some (VError (Some sample_error))
    ∧ data !! "pending_messages" = None
    ∧ ∀ k, k ∉ handler_keys → data !! k = Data sample_log !! k.
Proof.
  apply (ErrorHandler_other_error sample_ext sample_log (ConnHandle 1) sample_sub
           (Some sample_error) (sample_world sample_explicit)).
  discriminate.
Defined.

(** C8.  For [nats.ErrSlowConsumer] and a [Pending] call that succeeds with
    the count [n], the record carries [pending_messages = n] and the
    slow-consumer error itself as its error. *)
Theorem ErrorHandler_slow_consumer_pending
    (ext : Externals) (log : Entry) (c : Conn) (s : Subscription)
    (n bytes : Z) (w : World) :
  Pending ext s = (n, bytes, None) →
  ∃ data,
    call_ErrHandler ext (ErrorHandler log) (Some c) (Some s) (Some ErrSlowConsumer) w
    = Returned tt (add_events w
        [EvPending s;
         EvLog ErrorLevel data ("Error while consuming from " +:+ Subject s)])
    ∧ data !! "pending_messages" = Some (VInt n)
    ∧ data !! "error" = Some (VError (Some ErrSlowConsumer))
    ∧ data !! "subject" = Some (VString (Subject s))
    ∧ data !! "group" = Some (VString (Queue s))
    ∧ data !! "conn_status" = Some (VStatus (conn_Status ext c)).
Proof.
  intros Hpending. eexists. split; [by eapply call_ErrHandler_pending|].
  destruct (record_fields_pending ext log c s n (Some ErrSlowConsumer))
    as (? & ? & ? & ? & ?).
  done.
Qed.

Lemma ErrorHandler_slow_consumer_pending_witness :
  ∃ data,
    call_ErrHandler sample_ext (ErrorHandler sample_log) (Some (ConnHandle 1))
      (Some sample_sub) (Some ErrSlowConsumer) (sample_world sample_explicit)
    = Returned tt (add_events (sample_world sample_explicit)
        [EvPending sample_sub;
         EvLog ErrorLevel data "Error while consuming from orders"])
    ∧ data !! "pending_messages" = Some (VInt 42)
    ∧ data !! "error" = Some (VError (Some ErrSlowConsumer))
    ∧ data !! "subject" = Some (VString "orders")
    ∧ data !! "group" = Some (VString "workers")
    ∧ data !! "conn_status" = Some (VStatus 1).
Proof.
  apply (ErrorHandler_slow_consumer_pending sample_ext sample_log (ConnHandle 1)
           sample_sub 42 1024 (sample_world sample_explicit)).
  reflexivity.
Defined.

(** C4.  For [nats.ErrSlowConsumer] and a [Pending] call that fails with
    [perr], the error of the record is [perr], the slow-consumer error is
    not in it, and the handler adds no [pending_messages]: apart from its
    own five fields the record has the fields of the logger given to
    [ErrorHandler]. *)
Theorem ErrorHandler_slow_consumer_pending_fails
    (ext : Externals) (log : Entry) (c : Conn) (s : Subscription)
    (n bytes : Z) (perr : error) (w : World) :
  Pending ext s = (n, bytes, Some perr) →
  ∃ data,
    call_ErrHandler ext (ErrorHandler log) (Some c) (Some s) (Some ErrSlowConsumer) w
    = Returned tt (add_events w
        [EvPending s;
         EvLog ErrorLevel data ("Error while consuming from " +:+ Subject s)])
    ∧ data !! "error" = Some (VError (Some perr))
    ∧ (perr ≠ ErrSlowConsumer →
       data !! "error" ≠ Some (VError (Some ErrSlowConsumer)))
    ∧ data !! "pending_messages" = Data log !! "pending_messages"
    ∧ ∀ k, k ∉ handler_keys → data !! k = Data log !! k.
Proof.
  intros Hpending. eexists. split; [by eapply call_ErrHandler_pending_fails|].
  destruct (record_fields ext log c s (Some perr)) as (_ & _ & _ & Herr & _ & Hframe).
  split; [done|]. split; [rewrite Herr; congruence|]. split; [|done].
  apply Hframe. unfold handler_keys. rewrite !not_elem_of_cons.
  repeat split; [done..|apply not_elem_of_nil].
Qed.

Lemma ErrorHandler_slow_consumer_pending_fails_witness :
  ∃ data,
    call_ErrHandler (sample_ext_with None None None (Some sample_error))
      (ErrorHandler sample_log) (Some (ConnHandle 1))
      (Some sample_sub) (Some ErrSlowConsumer) (sample_world sample_explicit)
    = Returned tt (add_events (sample_world sample_explicit)
        [EvPending sample_sub;
         EvLog ErrorLevel data "Error while consuming from orders"])
    ∧ data !! "error" = Some (VError (Some sample_error))
    ∧ (sample_error ≠ ErrSlowConsumer →
       data !! "error" ≠ Some (VError (Some ErrSlowConsumer)))
    ∧ data !! "pending_messages" = None
    ∧ ∀ k, k ∉ handler_keys → data !! k = Data sample_log !! k.
Proof.
  apply (ErrorHandler_slow_consumer_pending_fails
           (sample_ext_with None None None (Some sample_error)) sample_log
           (ConnHandle 1) sample_sub (-1) 1024 sample_error
           (sample_world sample_explicit)).
  reflexivity.
Defined.

(** C10.  The handler reads [sub.Subject], [sub.Queue] and [conn.Status()]
    before it looks at the error: with a nil subscription or a nil
    connection the call panics, whatever the error, having made no [Pending]
    call and written no record; with both non-nil it returns and its last
    act is to write an error record. *)
Theorem ErrorHandler_nil_arguments
    (ext : Externals) (log : Entry) (conn : option Conn)
    (sub : option Subscription) (natsErr : option error) (w : World) :
  (conn = None ∨ sub = None →
   call_ErrHandler ext (ErrorHandler log) conn sub natsErr w = Panicked w)
  ∧ (conn ≠ None → sub ≠ None →
     ∃ evs data msg,
       call_ErrHandler ext (ErrorHandler log) conn sub natsErr w
       = Returned tt (add_events w (evs ++ [EvLog ErrorLevel data msg]))).
Proof.
  split.
  - intros [-> | ->];
      [apply call_ErrHandler_nil_conn|apply call_ErrHandler_nil_sub].
  - intros Hconn Hsub.
    destruct conn as [c|]; [|done]. destruct sub as [s|]; [|done].
    destruct (decide (natsErr = Some ErrSlowConsumer)) as [->|Hother].
    + destruct (Pending ext s) as [[n bytes] [perr|]] eqn:Hpending.
      * exists [EvPending s]. eexists _, _.
        by eapply call_ErrHandler_pending_fails.
      * exists [EvPending s]. eexists _, _.
        by eapply call_ErrHandler_pending.
    + exists []. eexists _, _. by apply call_ErrHandler_other.
Qed.

(** * Further properties *)

(** ** Fields *)

Lemma Fields_run (w : World) (l : loc) (cfg : NatsConfig) :
  configs w !! l = Some cfg →
  ∃ f,
    Fields (Some l) w = Returned f w
    ∧ f !! "logs_subject" = Some (VString (LogsSubject cfg))
    ∧ f !! "servers" = Some (VString (strings_Join (Servers cfg) ","))
    ∧ f !! "ca_files" = (λ t, VString (strings_Join (CAFiles t) ",")) <$> TLS cfg
    ∧ f !! "key_file" = (λ t, VString (KeyFile t)) <$> TLS cfg
    ∧ f !! "cert_file" = (λ t, VString (CertFile t)) <$> TLS cfg
    ∧ ∀ k, k ∉ config_keys → f !! k = None.
Proof.
  intros Hcfg. unfold Fields, load, mbind, M_bind, mret, M_ret. rewrite Hcfg.
  destruct (TLS cfg) as [t|]; cbn; eexists; (split; [reflexivity|]);
    repeat split;
    try (intros k Hk; unfold config_keys in Hk);
    rewrite ?lookup_insert, ?lookup_empty;
    repeat case_decide; simplify_eq; try done;
    exfalso; apply Hk; eauto 6 using list_elem_of_here, list_elem_of_further.
Qed.

(** X1.  On a valid config [Fields] returns without a call and without a
    write.  Its [servers] field is the string [ServerString] returns, the
    comma-join of [config.Servers]; the three TLS file fields are there
    exactly when [config.TLS] is not nil; there is no sixth field. *)
Theorem Fields_of_config (w : World) (l : loc) (cfg : NatsConfig) :
  configs w !! l = Some cfg →
  ∃ f url,
    Fields (Some l) w = Returned f w
    ∧ ServerString (Some l) w = Returned url w
    ∧ url = comma_join (Servers cfg)
    ∧ f !! "servers" = Some (VString url)
    ∧ f !! "logs_subject" = Some (VString (LogsSubject cfg))
    ∧ f !! "ca_files" = (λ t, VString (comma_join (CAFiles t))) <$> TLS cfg
    ∧ f !! "key_file" = (λ t, VString (KeyFile t)) <$> TLS cfg
    ∧ f !! "cert_file" = (λ t, VString (CertFile t)) <$> TLS cfg
    ∧ ∀ k, k ∉ config_keys → f !! k = None.
Proof.
  intros Hcfg.
  destruct (Fields_run w l cfg Hcfg) as (f & Hrun & Hlogs & Hservers & Hca & Hkey & Hcert & Hrest).
  exists f, (strings_Join (Servers cfg) ",").
  split; [done|].
  split; [unfold ServerString, load, mbind, M_bind, mret, M_ret; by rewrite Hcfg|].
  split; [apply strings_Join_concat|].
  do 2 (split; [done|]).
  split; [|done].
  rewrite Hca. destruct (TLS cfg); cbn; [|done].
  unfold comma_join. by rewrite strings_Join_concat.
Qed.

Lemma Fields_of_config_witness :
  ∃ f url,
    Fields (Some 1%positive) (sample_world sample_explicit)
    = Returned f (sample_world sample_explicit)
    ∧ ServerString (Some 1%positive) (sample_world sample_explicit)
      = Returned url (sample_world sample_explicit)
    ∧ url = "nats://a:4222,nats://b:4222,nats://a:4222"
    ∧ f !! "servers" = Some (VString url)
    ∧ f !! "logs_subject" = Some (VString "")
    ∧ f !! "ca_files" = Some (VString "ca.pem")
    ∧ f !! "key_file" = Some (VString "key.pem")
    ∧ f !! "cert_file" = Some (VString "cert.pem")
    ∧ ∀ k, k ∉ config_keys → f !! k = None.
Proof.
  apply (Fields_of_config (sample_world sample_explicit) 1%positive sample_explicit).
  reflexivity.
Defined.

(** X2.  After a [ConnectToNats] that called [nats.Connect], [Fields] on
    the same config reports under [servers] the very string that call was
    given: with discovery, the discovered addresses and not the configured
    ones. *)
Theorem Fields_after_ConnectToNats
    (ext : Externals) (w : World) (l : loc) (cfg : NatsConfig)
    (errHandler : option ErrHandler) (url : string) (options : list nats_Option) :
  configs w !! l = Some cfg →
  (url, options) ∈ ConnectToNats_calls ext (Some l) errHandler w →
  ∃ f,
    run_result (Fields (Some l)) (run_world (ConnectToNats ext (Some l) errHandler) w)
    = Some f
    ∧ f !! "servers" = Some (VString url)
    ∧ f !! "logs_subject" = Some (VString (LogsSubject cfg)).
Proof.
  intros Hcfg. unfold ConnectToNats_calls.
  destruct (ConnectToNats_cases ext w l cfg errHandler Hcfg)
    as [endpoints e Hname Hdisc Hrun|t c e _ Htls Hbuild Hrun|_ Hbuild Hrun];
    (erewrite (run_events_Returned _ _ _ _ _ Hrun);
      [|cbn; by rewrite ?trace_resolved_world]);
    rewrite ?connect_calls_app, ?connect_calls_discovery, ?connect_calls_tls; cbn;
    [by intros ?%elem_of_nil..|].
  intros Hin%list_elem_of_singleton. simplify_eq.
  rewrite (run_world_Returned _ _ _ _ Hrun).
  destruct (Fields_run (add_events (resolved_world ext l cfg w)
              (discovery_events cfg ++ tls_events cfg
               ++ [EvConnect (strings_Join (resolved_Servers ext cfg) ",")
                     (tls_options ext cfg ++ handler_options errHandler)]))
              l (set_Servers cfg (resolved_Servers ext cfg)))
    as (f & Hf & Hlogs & Hservers & _).
  { cbn. by apply lookup_resolved_world. }
  exists f. split; [by apply (run_result_Returned _ _ _ _ Hf)|]. done.
Qed.

Lemma Fields_after_ConnectToNats_witness :
  ∃ f,
    run_result (Fields (Some 1%positive))
      (run_world (ConnectToNats sample_ext (Some 1%positive) None)
         (sample_world sample_discovered))
    = Some f
    ∧ f !! "servers" = Some (VString "nats://h1:4222,nats://h2:4223")
    ∧ f !! "logs_subject" = Some (VString "logs").
Proof.
  apply (Fields_after_ConnectToNats sample_ext (sample_world sample_discovered)
           1%positive sample_discovered None "nats://h1:4222,nats://h2:4223" []);
    [reflexivity|vm_compute; left].
Defined.

(** ** ConfigureNatsConnection after the connect *)

Lemma hook_calls_app (evs1 evs2 : list Event) :
  hook_calls (evs1 ++ evs2) = hook_calls evs1 ++ hook_calls evs2.
Proof. apply omap_app. Qed.

Lemma hook_calls_hook_events (log : Entry) (nc : option Conn) (cfg : NatsConfig) :
  hook_calls (hook_events log nc cfg)
  = if decide (LogsSubject cfg ≠ "") then [(nc, LogsSubject cfg)] else [].
Proof. unfold hook_events. by case_decide. Qed.

(** A call on a valid config returns, having added events that hold no
    [AddHook], with the config still in place and its [LogsSubject] kept. *)
Lemma ConnectToNats_returns (ext : Externals) (w : World) (l : loc)
    (cfg : NatsConfig) (errHandler : option ErrHandler) :
  configs w !! l = Some cfg →
  ∃ r w' evs cfg',
    ConnectToNats ext (Some l) errHandler w = Returned r w'
    ∧ trace w' = trace w ++ evs
    ∧ hook_calls evs = []
    ∧ configs w' !! l = Some cfg'
    ∧ LogsSubject cfg' = LogsSubject cfg.
Proof.
  intros Hcfg.
  destruct (ConnectToNats_cases ext w l cfg errHandler Hcfg)
    as [endpoints e Hname Hdisc Hrun|t c e _ Htls Hbuild Hrun|_ Hbuild Hrun].
  - eexists _, _, _, cfg. split; [exact Hrun|]. by cbn.
  - eexists _, _, _, _. split; [exact Hrun|]. cbn.
    rewrite trace_resolved_world. split; [done|].
    split; [unfold discovery_events; by case_decide|].
    split; [by apply lookup_resolved_world|done].
  - eexists _, _, _, _. split; [exact Hrun|]. cbn.
    rewrite trace_resolved_world. split; [done|].
    split; [unfold discovery_events, tls_events; case_decide; by destruct (TLS cfg)|].
    split; [by apply lookup_resolved_world|done].
Qed.

Lemma ConfigureNatsConnection_ok (ext : Externals) (l : loc) (log : Entry)
    (w w' : World) (nc : option Conn) (cfg' : NatsConfig) :
  ConnectToNats ext (Some l) (Some (ErrorHandler log)) w = Returned (nc, None) w' →
  configs w' !! l = Some cfg' →
  ConfigureNatsConnection ext (Some l) log w
  = Returned (nc, None) (add_events w' (hook_events log nc cfg')).
Proof.
  intros Hrun Hcfg'. unfold ConfigureNatsConnection, mbind, M_bind. rewrite Hrun.
  unfold load, mret, M_ret. rewrite Hcfg'. unfold hook_events.
  case_decide; cbn.
  - unfold Entry_Debug, emit. world_eq.
  - by rewrite add_events_nil.
Qed.

(** What [ConfigureNatsConnection] adds to the [ConnectToNats] it runs. *)
Lemma ConfigureNatsConnection_run (ext : Externals) (w : World) (l : loc)
    (cfg : NatsConfig) (log : Entry) :
  configs w !! l = Some cfg →
  ∃ nc err w' evs,
    ConnectToNats ext (Some l) (Some (ErrorHandler log)) w = Returned (nc, err) w'
    ∧ trace w' = trace w ++ evs
    ∧ hook_calls evs = []
    ∧ match err with
      | Some e =>
          ConfigureNatsConnection ext (Some l) log w = Returned (None, Some e) w'
      | None =>
          ConfigureNatsConnection ext (Some l) log w
          = Returned (nc, None) (add_events w' (hook_events log nc cfg))
      end.
Proof.
  intros Hcfg.
  destruct (ConnectToNats_returns ext w l cfg (Some (ErrorHandler log)) Hcfg)
    as ([nc err] & w' & evs & cfg' & Hrun & Htrace & Hhooks & Hcfg' & Hsubject).
  exists nc, err, w', evs. do 3 (split; [done|]).
  destruct err as [e|].
  - by eapply ConfigureNatsConnection_error.
  - rewrite (ConfigureNatsConnection_ok _ _ _ _ _ _ _ Hrun Hcfg').
    unfold hook_events. by rewrite Hsubject.
Qed.

(** X3.  [ConfigureNatsConnection] on a non-nil config is [ConnectToNats]
    with [ErrorHandler(log)] and, after a nil error only, the hook: on an
    error it does nothing more and returns a nil connection with the error;
    otherwise it returns the connection, after [logrus.AddHook] and a debug
    record when [LogsSubject] is not empty, and nothing when it is.  The
    configs in memory are as [ConnectToNats] left them. *)
Theorem ConfigureNatsConnection_after_connect
    (ext : Externals) (w : World) (l : loc) (cfg : NatsConfig) (log : Entry)
    (nc : option Conn) (err : option error) :
  configs w !! l = Some cfg →
  run_result (ConnectToNats ext (Some l) (Some (ErrorHandler log))) w = Some (nc, err) →
  match err with
  | Some e =>
      run_result (ConfigureNatsConnection ext (Some l) log) w = Some (None, Some e)
      ∧ run_events (ConfigureNatsConnection ext (Some l) log) w
        = run_events (ConnectToNats ext (Some l) (Some (ErrorHandler log))) w
  | None =>
      run_result (ConfigureNatsConnection ext (Some l) log) w = Some (nc, None)
      ∧ run_events (ConfigureNatsConnection ext (Some l) log) w
        = run_events (ConnectToNats ext (Some l) (Some (ErrorHandler log))) w
          ++ hook_events log nc cfg
  end
  ∧ configs (run_world (ConfigureNatsConnection ext (Some l) log) w)
    = configs (run_world (ConnectToNats ext (Some l) (Some (ErrorHandler log))) w).
Proof.
  intros Hcfg Hres.
  destruct (ConfigureNatsConnection_run ext w l cfg log Hcfg)
    as (nc' & err' & w' & evs & Hrun & Htrace & _ & Hconf).
  rewrite (run_result_Returned _ _ _ _ Hrun) in Hres. simplify_eq.
  rewrite (run_events_Returned _ _ _ _ _ Hrun Htrace).
  rewrite (run_world_Returned _ _ _ _ Hrun).
  destruct err as [e|].
  - rewrite (run_result_Returned _ _ _ _ Hconf), (run_world_Returned _ _ _ _ Hconf).
    by rewrite (run_events_Returned _ _ _ _ _ Hconf Htrace).
  - rewrite (run_result_Returned _ _ _ _ Hconf), (run_world_Returned _ _ _ _ Hconf).
    erewrite (run_events_Returned _ _ _ _ _ Hconf); [done|].
    cbn. by rewrite Htrace, <- app_assoc.
Qed.

Lemma ConfigureNatsConnection_after_connect_witness :
  (run_result (ConfigureNatsConnection sample_ext (Some 1%positive) sample_log)
     (sample_world sample_discovered)
   = Some (Some (ConnHandle 1), None)
   ∧ run_events (ConfigureNatsConnection sample_ext (Some 1%positive) sample_log)
       (sample_world sample_discovered)
     = run_events (ConnectToNats sample_ext (Some 1%positive)
                     (Some (ErrorHandler sample_log)))
         (sample_world sample_discovered)
       ++ hook_events sample_log (Some (ConnHandle 1)) sample_discovered)
  ∧ configs (run_world (ConfigureNatsConnection sample_ext (Some 1%positive) sample_log)
               (sample_world sample_discovered))
    = configs (run_world (ConnectToNats sample_ext (Some 1%positive)
                            (Some (ErrorHandler sample_log)))
                 (sample_world sample_discovered)).
Proof.
  apply (ConfigureNatsConnection_after_connect sample_ext
           (sample_world sample_discovered) 1%positive sample_discovered sample_log
           (Some (ConnHandle 1)) None);
    reflexivity.
Defined.

(** X4.  [ConfigureNatsConnection] on a valid config registers a logrus
    hook for connection [nc] and subject [subject] exactly when it returns
    [nc] with a nil error and [subject] is the config's non-empty
    [LogsSubject]: never after an error, never for an empty subject. *)
Theorem AddHook_iff
    (ext : Externals) (w : World) (l : loc) (cfg : NatsConfig) (log : Entry)
    (nc : option Conn) (subject : string) :
  configs w !! l = Some cfg →
  (nc, subject) ∈ hook_calls (run_events (ConfigureNatsConnection ext (Some l) log) w)
  ↔ run_result (ConfigureNatsConnection ext (Some l) log) w = Some (nc, None)
    ∧ subject = LogsSubject cfg
    ∧ LogsSubject cfg ≠ "".
Proof.
  intros Hcfg.
  destruct (ConfigureNatsConnection_run ext w l cfg log Hcfg)
    as (nc' & err & w' & evs & Hrun & Htrace & Hhooks & Hconf).
  destruct err as [e|].
  - rewrite (run_result_Returned _ _ _ _ Hconf).
    rewrite (run_events_Returned _ _ _ _ _ Hconf Htrace), Hhooks.
    split; [by intros ?%elem_of_nil|by intros [? _]].
  - rewrite (run_result_Returned _ _ _ _ Hconf).
    erewrite (run_events_Returned _ _ _ _ _ Hconf);
      [|cbn; by rewrite Htrace, <- app_assoc].
    rewrite hook_calls_app, Hhooks, hook_calls_hook_events. cbn.
    case_decide.
    + rewrite list_elem_of_singleton. split.
      * intros ?; by simplify_eq.
      * intros (? & -> & _); by simplify_eq.
    + split; [by intros ?%elem_of_nil|by intros (_ & _ & ?)].
Qed.

Lemma AddHook_iff_witness :
  (Some (ConnHandle 1), "logs")
    ∈ hook_calls (run_events (ConfigureNatsConnection sample_ext (Some 1%positive) sample_log)
                    (sample_world sample_discovered))
  ↔ run_result (ConfigureNatsConnection sample_ext (Some 1%positive) sample_log)
      (sample_world sample_discovered)
    = Some (Some (ConnHandle 1), None)
    ∧ "logs" = LogsSubject sample_discovered
    ∧ LogsSubject sample_discovered ≠ "".
Proof.
  apply (AddHook_iff sample_ext (sample_world sample_discovered) 1%positive
           sample_discovered sample_log (Some (ConnHandle 1)) "logs").
  reflexivity.
Defined.

(** ** The calls of ConnectToNats *)

(** X5.  When the TLS builder returns settings, [ConnectToNats] makes one
    connect call, whose options start with [nats.Secure] of those settings;
    the error handler, if there is one, comes after it and is the only
    other option.  The call returns what [nats.Connect] returns. *)
Theorem ConnectToNats_secure_option
    (ext : Externals) (w : World) (l : loc) (cfg : NatsConfig)
    (errHandler : option ErrHandler) (t : tls_Config) (tlsConfig : crypto_tls_Config) :
  configs w !! l = Some cfg →
  discovery_ok ext cfg →
  TLS cfg = Some t →
  TLSConfig ext t = (Some tlsConfig, None) →
  ∃ url,
    ConnectToNats_calls ext (Some l) errHandler w
    = [(url, nats_Secure tlsConfig :: match errHandler with
                                      | Some h => [nats_ErrorHandler h]
                                      | None => []
                                      end)]
    ∧ run_result (ConnectToNats ext (Some l) errHandler) w
      = Some (Connect ext url
                (nats_Secure tlsConfig :: match errHandler with
                                          | Some h => [nats_ErrorHandler h]
                                          | None => []
                                          end)).
Proof.
  intros Hcfg Hok Htls Hbuild.
  assert (tls_builds ext cfg) as Hbuilds.
  { unfold tls_builds. by rewrite Htls, Hbuild. }
  pose proof (ConnectToNats_connects ext w l cfg errHandler Hcfg Hok Hbuilds) as Hrun.
  assert (tls_options ext cfg = [nats_Secure tlsConfig]) as Hopts.
  { unfold tls_options. by rewrite Htls, Hbuild. }
  rewrite Hopts in Hrun.
  exists (strings_Join (resolved_Servers ext cfg) ",").
  unfold ConnectToNats_calls.
  rewrite (run_result_Returned _ _ _ _ Hrun).
  erewrite (run_events_Returned _ _ _ _ _ Hrun);
    [|cbn; by rewrite trace_resolved_world].
  rewrite !connect_calls_app, connect_calls_discovery, connect_calls_tls.
  by destruct errHandler.
Qed.

Lemma ConnectToNats_secure_option_witness :
  ∃ url,
    ConnectToNats_calls
      {| DiscoverEndpoints := DiscoverEndpoints sample_ext;
         TLSConfig := λ _, (Some (CryptoTLS 5), None);
         Connect := Connect sample_ext;
         conn_Status := conn_Status sample_ext;
         Pending := Pending sample_ext |}
      (Some 1%positive) (Some (ErrorHandler sample_log)) (sample_world sample_explicit)
    = [(url, [nats_Secure (CryptoTLS 5); nats_ErrorHandler (ErrorHandler sample_log)])]
    ∧ run_result
        (ConnectToNats
           {| DiscoverEndpoints := DiscoverEndpoints sample_ext;
              TLSConfig := λ _, (Some (CryptoTLS 5), None);
              Connect := Connect sample_ext;
              conn_Status := conn_Status sample_ext;
              Pending := Pending sample_ext |}
           (Some 1%positive) (Some (ErrorHandler sample_log)))
        (sample_world sample_explicit)
      = Some (Some (ConnHandle 1), None).
Proof.
  apply (ConnectToNats_secure_option
           {| DiscoverEndpoints := DiscoverEndpoints sample_ext;
              TLSConfig := λ _, (Some (CryptoTLS 5), None);
              Connect := Connect sample_ext;
              conn_Status := conn_Status sample_ext;
              Pending := Pending sample_ext |}
           (sample_world sample_explicit) 1%positive sample_explicit
           (Some (ErrorHandler sample_log)) sample_tls (CryptoTLS 5));
    [reflexivity|left; reflexivity|reflexivity|reflexivity].
Defined.

Lemma discovery_calls_app (evs1 evs2 : list Event) :
  discovery_calls (evs1 ++ evs2) = discovery_calls evs1 ++ discovery_calls evs2.
Proof. apply omap_app. Qed.

Lemma tls_calls_app (evs1 evs2 : list Event) :
  tls_calls (evs1 ++ evs2) = tls_calls evs1 ++ tls_calls evs2.
Proof. apply omap_app. Qed.

Lemma pending_calls_app (evs1 evs2 : list Event) :
  pending_calls (evs1 ++ evs2) = pending_calls evs1 ++ pending_calls evs2.
Proof. apply omap_app. Qed.

Lemma discovery_calls_discovery_events (cfg : NatsConfig) :
  discovery_calls (discovery_events cfg)
  = if decide (DiscoveryName cfg ≠ "") then [DiscoveryName cfg] else [].
Proof. unfold discovery_events. by case_decide. Qed.

Lemma tls_calls_discovery_events (cfg : NatsConfig) :
  tls_calls (discovery_events cfg) = [].
Proof. unfold discovery_events. by case_decide. Qed.

Lemma pending_calls_discovery_events (cfg : NatsConfig) :
  pending_calls (discovery_events cfg) = [].
Proof. unfold discovery_events. by case_decide. Qed.

Lemma discovery_calls_tls_events (cfg : NatsConfig) :
  discovery_calls (tls_events cfg) = [].
Proof. unfold tls_events. by destruct (TLS cfg). Qed.

Lemma tls_calls_tls_events (cfg : NatsConfig) :
  tls_calls (tls_events cfg) = option_list (TLS cfg).
Proof. unfold tls_events. by destruct (TLS cfg). Qed.

Lemma pending_calls_tls_events (cfg : NatsConfig) :
  pending_calls (tls_events cfg) = [].
Proof. unfold tls_events. by destruct (TLS cfg). Qed.

(** X6.  One [ConnectToNats] on a valid config calls each collaborator at
    most once, in the order discovery, TLS builder, connect, and stops at
    the first failure: the discovery lookup is made once when
    [DiscoveryName] is not empty and not at all otherwise; the TLS builder is
    called once when [config.TLS] is not nil and discovery did not fail;
    [nats.Connect] is called once when neither failed and never otherwise.
    It calls neither [Pending] nor [logrus.AddHook]. *)
Theorem ConnectToNats_calls_once
    (ext : Externals) (w : World) (l : loc) (cfg : NatsConfig)
    (errHandler : option ErrHandler) :
  configs w !! l = Some cfg →
  discovery_calls (run_events (ConnectToNats ext (Some l) errHandler) w)
  = (if decide (DiscoveryName cfg ≠ "") then [DiscoveryName cfg] else [])
  ∧ (discovery_ok ext cfg →
     tls_calls (run_events (ConnectToNats ext (Some l) errHandler) w)
     = option_list (TLS cfg))
  ∧ (¬ discovery_ok ext cfg →
     tls_calls (run_events (ConnectToNats ext (Some l) errHandler) w) = [])
  ∧ (discovery_ok ext cfg → tls_builds ext cfg →
     ∃ url options,
       run_events (ConnectToNats ext (Some l) errHandler) w
       = discovery_events cfg ++ tls_events cfg ++ [EvConnect url options])
  ∧ (¬ (discovery_ok ext cfg ∧ tls_builds ext cfg) →
     connect_calls (run_events (ConnectToNats ext (Some l) errHandler) w) = [])
  ∧ pending_calls (run_events (ConnectToNats ext (Some l) errHandler) w) = []
  ∧ hook_calls (run_events (ConnectToNats ext (Some l) errHandler) w) = [].
Proof.
  intros Hcfg.
  destruct (ConnectToNats_cases ext w l cfg errHandler Hcfg)
    as [endpoints e Hname Hdisc Hrun|t c e Hok Htls Hbuild Hrun|Hok Hbuild Hrun];
    (erewrite (run_events_Returned _ _ _ _ _ Hrun);
      [|cbn; by rewrite ?trace_resolved_world]).
  - assert (¬ discovery_ok ext cfg) as Hnot.
    { intros [?|Hnone]; [done|]. by rewrite Hdisc in Hnone. }
    cbn. case_decide; [|done]. by repeat split.
  - assert (¬ tls_builds ext cfg) as Hnot.
    { unfold tls_builds. by rewrite Htls, Hbuild. }
    rewrite discovery_calls_app, tls_calls_app, connect_calls_app,
      pending_calls_app, hook_calls_app.
    rewrite discovery_calls_discovery_events, tls_calls_discovery_events,
      connect_calls_discovery, pending_calls_discovery_events.
    assert (hook_calls (discovery_events cfg) = []) as ->.
    { unfold discovery_events. by case_decide. }
    cbn. rewrite app_nil_r, Htls. by repeat split.
  - rewrite !discovery_calls_app, !tls_calls_app, !connect_calls_app,
      !pending_calls_app, !hook_calls_app.
    rewrite discovery_calls_discovery_events, tls_calls_discovery_events,
      connect_calls_discovery, pending_calls_discovery_events,
      discovery_calls_tls_events, tls_calls_tls_events, connect_calls_tls,
      pending_calls_tls_events.
    assert (hook_calls (discovery_events cfg) = []) as ->.
    { unfold discovery_events. by case_decide. }
    assert (hook_calls (tls_events cfg) = []) as ->.
    { unfold tls_events. by destruct (TLS cfg). }
    cbn. rewrite !app_nil_r. repeat split; try done.
    + intros _ _. by eexists _, _.
    + intros Hnot. destruct Hnot. done.
Qed.

Lemma ConnectToNats_calls_once_witness :
  discovery_calls (run_events (ConnectToNats sample_ext (Some 1%positive) None)
                     (sample_world sample_discovered))
  = ["nats.service"]
  ∧ (discovery_ok sample_ext sample_discovered →
     tls_calls (run_events (ConnectToNats sample_ext (Some 1%positive) None)
                  (sample_world sample_discovered))
     = [sample_tls])
  ∧ (¬ discovery_ok sample_ext sample_discovered →
     tls_calls (run_events (ConnectToNats sample_ext (Some 1%positive) None)
                  (sample_world sample_discovered)) = [])
  ∧ (discovery_ok sample_ext sample_discovered → tls_builds sample_ext sample_discovered →
     ∃ url options,
       run_events (ConnectToNats sample_ext (Some 1%positive) None)
         (sample_world sample_discovered)
       = discovery_events sample_discovered ++ tls_events sample_discovered
         ++ [EvConnect url options])
  ∧ (¬ (discovery_ok sample_ext sample_discovered ∧ tls_builds sample_ext sample_discovered) →
     connect_calls (run_events (ConnectToNats sample_ext (Some 1%positive) None)
                      (sample_world sample_discovered)) = [])
  ∧ pending_calls (run_events (ConnectToNats sample_ext (Some 1%positive) None)
                     (sample_world sample_discovered)) = []
  ∧ hook_calls (run_events (ConnectToNats sample_ext (Some 1%positive) None)
                  (sample_world sample_discovered)) = [].
Proof.
  apply (ConnectToNats_calls_once sample_ext (sample_world sample_discovered)
           1%positive sample_discovered None).
  reflexivity.
Defined.



(** ** Nil pointers *)

(** X8.  Of the four functions that take a [*NatsConfig], only
    [ConfigureNatsConnection] accepts nil.  [ConnectToNats], [ServerString]
    and [Fields] return on a config in memory and panic on nil,
    [ConnectToNats] before it has made any call. *)
Theorem nil_config_panics
    (ext : Externals) (w : World) (config : option loc)
    (errHandler : option ErrHandler) (log : Entry) :
  valid_pointer w config →
  (is_Some (run_result (ConnectToNats ext config errHandler) w) ↔ config ≠ None)
  ∧ (config = None → ConnectToNats ext config errHandler w = Panicked w)
  ∧ (is_Some (run_result (ServerString config) w) ↔ config ≠ None)
  ∧ (is_Some (run_result (Fields config) w) ↔ config ≠ None)
  ∧ is_Some (run_result (ConfigureNatsConnection ext config log) w).
Proof.
  intros Hvalid. destruct config as [l|]; cbn in Hvalid.
  - destruct Hvalid as [cfg Hcfg].
    destruct (ConnectToNats_returns ext w l cfg errHandler Hcfg)
      as (r & w' & evs & cfg' & Hrun & _).
    destruct (Fields_run w l cfg Hcfg) as (f & Hf & _).
    destruct (ConfigureNatsConnection_run ext w l cfg log Hcfg)
      as (nc & err & w'' & evs' & _ & _ & _ & Hconf).
    rewrite (run_result_Returned _ _ _ _ Hrun), (run_result_Returned _ _ _ _ Hf).
    assert (is_Some (run_result (ConfigureNatsConnection ext (Some l) log) w)) as Hsome.
    { destruct err; by rewrite (run_result_Returned _ _ _ _ Hconf). }
    assert (is_Some (run_result (ServerString (Some l)) w)) as Hstring.
    { unfold run_result, ServerString, load, mbind, M_bind, mret, M_ret.
      by rewrite Hcfg. }
    repeat split; try done.
  - repeat split; try done; by intros [? [=]].
Qed.

Lemma nil_config_panics_witness :
  (is_Some (run_result (ConnectToNats sample_ext None None) (sample_world sample_explicit))
   ↔ None ≠ @None loc)
  ∧ (@None loc = None →
     ConnectToNats sample_ext None None (sample_world sample_explicit)
     = Panicked (sample_world sample_explicit))
  ∧ (is_Some (run_result (ServerString None) (sample_world sample_explicit))
     ↔ None ≠ @None loc)
  ∧ (is_Some (run_result (Fields None) (sample_world sample_explicit))
     ↔ None ≠ @None loc)
  ∧ is_Some (run_result (ConfigureNatsConnection sample_ext None sample_log)
               (sample_world sample_explicit)).
Proof.
  apply (nil_config_panics sample_ext (sample_world sample_explicit) None None sample_log).
  exact I.
Defined.

(** ** One record per error *)

(** X9.  Called with a connection and a subscription, the handler writes
    exactly one record, at error level, as its last act, with the message
    naming the subject and with [component], [subject], [group],
    [conn_status] and [error] set; before it, it makes one [Pending] call
    when the error is [nats.ErrSlowConsumer] and none otherwise.  It changes
    no config. *)
Theorem ErrorHandler_one_record
    (ext : Externals) (log : Entry) (c : Conn) (s : Subscription)
    (natsErr : option error) (w : World) :
  ∃ data,
    run_result (call_ErrHandler ext (ErrorHandler log) (Some c) (Some s) natsErr) w
    = Some tt
    ∧ run_events (call_ErrHandler ext (ErrorHandler log) (Some c) (Some s) natsErr) w
      = (if decide (natsErr = Some ErrSlowConsumer) then [EvPending s] else [])
        ++ [EvLog ErrorLevel data ("Error while consuming from " +:+ Subject s)]
    ∧ configs (run_world (call_ErrHandler ext (ErrorHandler log) (Some c) (Some s) natsErr) w)
      = configs w
    ∧ data !! "component" = Some (VString "error-logger")
    ∧ data !! "subject" = Some (VString (Subject s))
    ∧ data !! "group" = Some (VString (Queue s))
    ∧ data !! "conn_status" = Some (VStatus (conn_Status ext c))
    ∧ is_Some (data !! "error").
Proof.
  case_decide as Hslow.
  - subst natsErr. destruct (Pending ext s) as [[n bytes] [perr|]] eqn:Hpending.
    + pose proof (call_ErrHandler_pending_fails ext (ErrorHandler log) c s n bytes perr w
                    Hpending) as Hrun.
      destruct (record_fields ext log c s (Some perr)) as (? & ? & ? & Herr & ? & _).
      eexists. rewrite (run_result_Returned _ _ _ _ Hrun),
        (run_world_Returned _ _ _ _ Hrun).
      erewrite (run_events_Returned _ _ _ _ _ Hrun); [|done].
      rewrite Herr. by repeat split.
    + pose proof (call_ErrHandler_pending ext (ErrorHandler log) c s n bytes w
                    Hpending) as Hrun.
      destruct (record_fields_pending ext log c s n (Some ErrSlowConsumer))
        as (? & ? & ? & Herr & ?).
      eexists. rewrite (run_result_Returned _ _ _ _ Hrun),
        (run_world_Returned _ _ _ _ Hrun).
      erewrite (run_events_Returned _ _ _ _ _ Hrun); [|done].
      rewrite Herr. repeat split; try done. solve_field.
  - pose proof (call_ErrHandler_other ext (ErrorHandler log) c s natsErr w Hslow) as Hrun.
    destruct (record_fields ext log c s natsErr) as (? & ? & ? & Herr & ? & _).
    eexists. rewrite (run_result_Returned _ _ _ _ Hrun),
      (run_world_Returned _ _ _ _ Hrun).
    erewrite (run_events_Returned _ _ _ _ _ Hrun); [|done].
    rewrite Herr. by repeat split.
Qed.

(** ** Server strings and addresses determine their parts *)

Lemma append_String (ch : Ascii.ascii) (a b : string) :
  String ch a +:+ b = String ch (a +:+ b).
Proof. done. Qed.

Lemma char_free_separator (c : Ascii.ascii) (a b : string) :
  char_free c (a +:+ String c b) = false.
Proof.
  induction a as [|ch a IH].
  - change (char_free c (String c b) = false). cbn [char_free]. by case_decide.
  - rewrite append_String. cbn [char_free]. by case_decide.
Qed.

(** The first separator after a separator-free head splits a string in one
    way only. *)
Lemma first_separator (c : Ascii.ascii) (a b x y : string) :
  char_free c a = true → char_free c b = true →
  a +:+ String c x = b +:+ String c y → a = b ∧ x = y.
Proof.
  revert b. induction a as [|ch a IH]; intros [|ch' b] Ha Hb Heq.
  - by simplify_eq.
  - rewrite append_String in Heq. cbn in Hb. case_decide; [done|].
    change ("" +:+ String c x) with (String c x) in Heq. by simplify_eq.
  - rewrite append_String in Heq. cbn in Ha. case_decide; [done|].
    change ("" +:+ String c y) with (String c y) in Heq. by simplify_eq.
  - rewrite !append_String in Heq. cbn in Ha, Hb.
    repeat case_decide; try done. simplify_eq.
    destruct (IH b) as [-> ->]; done.
Qed.

(** The last separator before a separator-free tail splits a string in one
    way only. *)
Lemma last_separator (c : Ascii.ascii) (a b x y : string) :
  char_free c x = true → char_free c y = true →
  a +:+ String c x = b +:+ String c y → a = b ∧ x = y.
Proof.
  revert b. induction a as [|ch a IH]; intros [|ch' b] Hx Hy Heq.
  - change (String c x = String c y) in Heq. by simplify_eq.
  - rewrite append_String in Heq. change ("" +:+ String c x) with (String c x) in Heq.
    simplify_eq. by rewrite char_free_separator in Hx.
  - rewrite append_String in Heq. change ("" +:+ String c y) with (String c y) in Heq.
    simplify_eq. by rewrite char_free_separator in Hy.
  - rewrite !append_String in Heq. simplify_eq.
    destruct (IH b) as [-> ->]; done.
Qed.

Lemma concat_cons_cons (sep a b : string) (l : list string) :
  String.concat sep (a :: b :: l) = a +:+ sep +:+ String.concat sep (b :: l).
Proof. done. Qed.

Lemma concat_comma_nil (l : list string) :
  String.concat "," l = "" → l = [] ∨ l = [""].
Proof.
  destruct l as [|a [|b l]]; [by left|intros Heq; cbn in Heq; subst; by right|].
  rewrite concat_cons_cons. destruct a; [|done].
  change ("" +:+ "," +:+ String.concat "," (b :: l))
    with (String ","%char (String.concat "," (b :: l))).
  done.
Qed.

Lemma concat_comma_inj (l1 l2 : list string) :
  Forall (λ s, char_free ","%char s = true) l1 →
  Forall (λ s, char_free ","%char s = true) l2 →
  l1 ≠ [] → l2 ≠ [] →
  String.concat "," l1 = String.concat "," l2 → l1 = l2.
Proof.
  revert l2. induction l1 as [|a l1 IH]; intros l2 Hfree1 Hfree2 Hne1 Hne2 Heq; [done|].
  destruct l2 as [|b l2]; [done|].
  apply Forall_cons in Hfree1 as [Ha Hfree1].
  apply Forall_cons in Hfree2 as [Hb Hfree2].
  destruct l1 as [|a' l1], l2 as [|b' l2].
  - cbn in Heq. by subst.
  - change (a = b +:+ String ","%char (String.concat "," (b' :: l2))) in Heq.
    subst a. by rewrite char_free_separator in Ha.
  - change (a +:+ String ","%char (String.concat "," (a' :: l1)) = b) in Heq.
    subst b. by rewrite char_free_separator in Hb.
  - change (a +:+ String ","%char (String.concat "," (a' :: l1))
            = b +:+ String ","%char (String.concat "," (b' :: l2))) in Heq.
    apply first_separator in Heq as [-> Heq]; [|done..].
    f_equal. by apply IH.
Qed.

(** X10.  Two configs whose addresses contain no comma get the same
    [ServerString] only if their [Servers] lists are equal, element by
    element and in order, with one exception: the empty list and the list
    holding just the empty string both give the empty string. *)
Theorem ServerString_determines_Servers
    (w1 w2 : World) (l1 l2 : loc) (cfg1 cfg2 : NatsConfig) :
  configs w1 !! l1 = Some cfg1 →
  configs w2 !! l2 = Some cfg2 →
  Forall (λ s, char_free ","%char s = true) (Servers cfg1) →
  Forall (λ s, char_free ","%char s = true) (Servers cfg2) →
  run_result (ServerString (Some l1)) w1 = run_result (ServerString (Some l2)) w2 →
  Servers cfg1 = Servers cfg2
  ∨ (Servers cfg1 = [] ∧ Servers cfg2 = [""])
  ∨ (Servers cfg1 = [""] ∧ Servers cfg2 = []).
Proof.
  intros Hcfg1 Hcfg2 Hfree1 Hfree2.
  unfold run_result, ServerString, load, mbind, M_bind, mret, M_ret.
  rewrite Hcfg1, Hcfg2, !strings_Join_concat. intros [= Heq].
  destruct (decide (Servers cfg1 = [])) as [Hnil1|Hne1].
  - rewrite Hnil1 in *. symmetry in Heq.
    apply concat_comma_nil in Heq as [->| ->]; by auto.
  - destruct (decide (Servers cfg2 = [])) as [Hnil2|Hne2].
    + rewrite Hnil2 in *.
      apply concat_comma_nil in Heq as [?|Heq]; [done|]. by auto.
    + left. by apply concat_comma_inj.
Qed.

Lemma ServerString_determines_Servers_witness :
  Servers sample_explicit = ["nats://a:4222"; "nats://b:4222"; "nats://a:4222"]
  ∨ (Servers sample_explicit = []
     ∧ ["nats://a:4222"; "nats://b:4222"; "nats://a:4222"] = [""])
  ∨ (Servers sample_explicit = [""]
     ∧ ["nats://a:4222"; "nats://b:4222"; "nats://a:4222"] = []).
Proof.
  apply (ServerString_determines_Servers
           (sample_world sample_explicit)
           (sample_world (set_Servers sample_discovered
                            ["nats://a:4222"; "nats://b:4222"; "nats://a:4222"]))
           1%positive 1%positive sample_explicit
           (set_Servers sample_discovered
              ["nats://a:4222"; "nats://b:4222"; "nats://a:4222"]));
    [reflexivity|reflexivity| | |reflexivity];
    repeat constructor.
Defined.

Lemma pretty_N_go_char_free (c : Ascii.ascii) (x : N) (s : string) :
  (∀ d, pretty_N_char d ≠ c) →
  char_free c s = true → char_free c (pretty_N_go x s) = true.
Proof.
  intros Hdigit. revert s.
  induction (N.lt_wf_0 x) as [x _ IH]; intros s Hs.
  assert (x = 0 ∨ 0 < x)%N as [->|Hpos] by lia.
  - by rewrite pretty_N_go_0.
  - rewrite pretty_N_go_step by done. apply IH.
    + by apply N.div_lt.
    + cbn. case_decide as Heq; [|done]. by destruct (Hdigit (x `mod` 10)%N).
Qed.

Lemma colon_not_digit (d : N) : pretty_N_char d ≠ ":"%char.
Proof. unfold pretty_N_char. by repeat case_match. Qed.

Lemma pretty_N_colon_free (x : N) : char_free ":"%char (pretty x) = true.
Proof.
  unfold pretty, pretty_N. case_decide; [done|].
  apply pretty_N_go_char_free; [apply colon_not_digit|done].
Qed.

Lemma pretty_Z_colon_free (x : Z) : char_free ":"%char (pretty x) = true.
Proof.
  destruct x as [|p|p]; [done|apply pretty_N_colon_free|].
  change (pretty (Z.neg p)) with (String "-"%char (pretty (N.pos p))).
  cbn. case_decide; [done|]. apply pretty_N_colon_free.
Qed.

Lemma Sprintf_nats_url_inj (target1 target2 : string) (port1 port2 : Z) :
  Sprintf_nats_url target1 port1 = Sprintf_nats_url target2 port2 →
  target1 = target2 ∧ port1 = port2.
Proof.
  unfold Sprintf_nats_url. intros Heq.
  apply (inj (String.append "nats://")) in Heq.
  change (target1 +:+ String ":"%char (pretty port1)
          = target2 +:+ String ":"%char (pretty port2)) in Heq.
  apply last_separator in Heq as [-> Hport]; [|apply pretty_Z_colon_free..].
  split; [done|]. by apply (inj pretty).
Qed.

Lemma endpoint_address_inj (ep1 ep2 : Endpoint) :
  endpoint_address ep1 = endpoint_address ep2 → ep1 = ep2.
Proof.
  destruct ep1 as [t1 p1], ep2 as [t2 p2]. intros Heq.
  apply (Sprintf_nats_url_inj t1 t2 p1 p2) in Heq as [-> ->]. done.
Qed.

Lemma map_endpoint_address_inj (endpoints1 endpoints2 : list Endpoint) :
  map endpoint_address endpoints1 = map endpoint_address endpoints2 →
  endpoints1 = endpoints2.
Proof.
  revert endpoints2.
  induction endpoints1 as [|ep1 eps1 IH]; intros [|ep2 eps2] Heq; try done.
  cbn [map] in Heq.
  assert (endpoint_address ep1 = endpoint_address ep2) as Hhead by congruence.
  assert (map endpoint_address eps1 = map endpoint_address eps2) as Htail by congruence.
  f_equal; [by apply endpoint_address_inj|by apply IH].
Qed.

(** X11.  The addresses [discoverNatsURLs] builds determine the endpoints:
    two successful lookups give the same address list only if they found
    the same endpoints, target by target and port by port, in the same
    order.  A colon in a target is no exception. *)
Theorem discoverNatsURLs_determines_endpoints
    (ext : Externals) (w1 w2 : World) (name1 name2 : string)
    (endpoints1 endpoints2 : list Endpoint) :
  DiscoverEndpoints ext name1 = (endpoints1, None) →
  DiscoverEndpoints ext name2 = (endpoints2, None) →
  run_result (discoverNatsURLs ext name1) w1 = run_result (discoverNatsURLs ext name2) w2 →
  endpoints1 = endpoints2.
Proof.
  intros Hdisc1 Hdisc2.
  unfold run_result. unfold_go. rewrite Hdisc1, Hdisc2, !natsURLs_loop.
  cbn [app]. intros [= Heq]. by apply map_endpoint_address_inj.
Qed.

Lemma discoverNatsURLs_determines_endpoints_witness :
  sample_endpoints = sample_endpoints.
Proof.
  apply (discoverNatsURLs_determines_endpoints sample_ext
           (sample_world sample_explicit) (sample_world sample_discovered)
           "a" "b" sample_endpoints sample_endpoints);
    reflexivity.
Defined.

(** ** Where results come from *)

(** The options of every connect call of a run. *)
Lemma ConnectToNats_call_options (ext : Externals) (w : World) (l : loc)
    (cfg : NatsConfig) (errHandler : option ErrHandler)
    (url : string) (options : list nats_Option) :
  configs w !! l = Some cfg →
  (url, options) ∈ ConnectToNats_calls ext (Some l) errHandler w →
  url = strings_Join (resolved_Servers ext cfg) ","
  ∧ options = tls_options ext cfg ++ handler_options errHandler
  ∧ run_result (ConnectToNats ext (Some l) errHandler) w = Some (Connect ext url options).
Proof.
  intros Hcfg. unfold ConnectToNats_calls.
  destruct (ConnectToNats_cases ext w l cfg errHandler Hcfg)
    as [endpoints e Hname Hdisc Hrun|t c e _ Htls Hbuild Hrun|_ Hbuild Hrun];
    (erewrite (run_events_Returned _ _ _ _ _ Hrun);
      [|cbn; by rewrite ?trace_resolved_world]);
    rewrite ?connect_calls_app, ?connect_calls_discovery, ?connect_calls_tls; cbn;
    [by intros ?%elem_of_nil..|].
  intros Hin%list_elem_of_singleton. simplify_eq.
  by rewrite (run_result_Returned _ _ _ _ Hrun).
Qed.

(** X12.  [ConnectToNats] returns a nil error only after a connect call
    that [nats.Connect] answered with a nil error, and then it returns that
    call's connection: there is no success without a connect. *)
Theorem ConnectToNats_success_is_connect
    (ext : Externals) (w : World) (l : loc) (cfg : NatsConfig)
    (errHandler : option ErrHandler) (nc : option Conn) :
  configs w !! l = Some cfg →
  run_result (ConnectToNats ext (Some l) errHandler) w = Some (nc, None) →
  ∃ url options,
    ConnectToNats_calls ext (Some l) errHandler w = [(url, options)]
    ∧ Connect ext url options = (nc, None).
Proof.
  intros Hcfg Hres. unfold ConnectToNats_calls.
  destruct (ConnectToNats_cases ext w l cfg errHandler Hcfg)
    as [endpoints e Hname Hdisc Hrun|t c e _ Htls Hbuild Hrun|_ Hbuild Hrun];
    rewrite (run_result_Returned _ _ _ _ Hrun) in Hres; [done..|].
  erewrite (run_events_Returned _ _ _ _ _ Hrun);
    [|cbn; by rewrite ?trace_resolved_world].
  rewrite ?connect_calls_app, ?connect_calls_discovery, ?connect_calls_tls. cbn.
  eexists _, _. split; [done|]. by simplify_eq.
Qed.

Lemma ConnectToNats_success_is_connect_witness :
  ∃ url options,
    ConnectToNats_calls sample_ext (Some 1%positive) None (sample_world sample_discovered)
    = [(url, options)]
    ∧ Connect sample_ext url options = (Some (ConnHandle 1), None).
Proof.
  apply (ConnectToNats_success_is_connect sample_ext (sample_world sample_discovered)
           1%positive sample_discovered None (Some (ConnHandle 1)));
    reflexivity.
Defined.

(** X13.  An error returned by [ConnectToNats] is always one a
    collaborator returned in this call: the discovery lookup, the TLS
    builder, or [nats.Connect].  The function makes up no error of its
    own. *)
Theorem ConnectToNats_error_origin
    (ext : Externals) (w : World) (l : loc) (cfg : NatsConfig)
    (errHandler : option ErrHandler) (nc : option Conn) (e : error) :
  configs w !! l = Some cfg →
  run_result (ConnectToNats ext (Some l) errHandler) w = Some (nc, Some e) →
  (DiscoveryName cfg ≠ ""
   ∧ (DiscoverEndpoints ext (DiscoveryName cfg)).2 = Some e)
  ∨ (∃ t, TLS cfg = Some t ∧ (TLSConfig ext t).2 = Some e)
  ∨ (∃ url options,
       (url, options) ∈ ConnectToNats_calls ext (Some l) errHandler w
       ∧ Connect ext url options = (nc, Some e)).
Proof.
  intros Hcfg Hres. unfold ConnectToNats_calls.
  destruct (ConnectToNats_cases ext w l cfg errHandler Hcfg)
    as [endpoints e' Hname Hdisc Hrun|t c e' _ Htls Hbuild Hrun|_ Hbuild Hrun];
    rewrite (run_result_Returned _ _ _ _ Hrun) in Hres.
  - left. simplify_eq. by rewrite Hdisc.
  - right; left. simplify_eq. exists t. by rewrite Hbuild.
  - right; right.
    erewrite (run_events_Returned _ _ _ _ _ Hrun);
      [|cbn; by rewrite ?trace_resolved_world].
    rewrite ?connect_calls_app, ?connect_calls_discovery, ?connect_calls_tls. cbn.
    eexists _, _. split; [apply list_elem_of_here|]. by simplify_eq.
Qed.

Lemma ConnectToNats_error_origin_witness :
  (DiscoveryName sample_discovered ≠ ""
   ∧ (DiscoverEndpoints (sample_ext_with None None (Some sample_error) None)
        (DiscoveryName sample_discovered)).2 = Some sample_error)
  ∨ (∃ t, TLS sample_discovered = Some t
          ∧ (TLSConfig (sample_ext_with None None (Some sample_error) None) t).2
            = Some sample_error)
  ∨ (∃ url options,
       (url, options) ∈ ConnectToNats_calls
                          (sample_ext_with None None (Some sample_error) None)
                          (Some 1%positive) None (sample_world sample_discovered)
       ∧ Connect (sample_ext_with None None (Some sample_error) None) url options
         = (None, Some sample_error)).
Proof.
  apply (ConnectToNats_error_origin (sample_ext_with None None (Some sample_error) None)
           (sample_world sample_discovered) 1%positive sample_discovered None None
           sample_error);
    reflexivity.
Defined.

(** X14.  Every connect call [ConfigureNatsConnection] makes carries the
    logging handler [ErrorHandler(log)] as its last option, after the
    [nats.Secure] option if there is one; the call is the only one, and its
    server string is the comma-join of [config.Servers] as the discovery
    block left it. *)
Theorem ConfigureNatsConnection_installs_handler
    (ext : Externals) (w : World) (l : loc) (cfg : NatsConfig) (log : Entry)
    (url : string) (options : list nats_Option) :
  configs w !! l = Some cfg →
  (url, options) ∈ connect_calls (run_events (ConfigureNatsConnection ext (Some l) log) w) →
  connect_calls (run_events (ConfigureNatsConnection ext (Some l) log) w) = [(url, options)]
  ∧ last options = Some (nats_ErrorHandler (ErrorHandler log))
  ∧ (options = [nats_ErrorHandler (ErrorHandler log)]
     ∨ ∃ tlsConfig,
         options = [nats_Secure tlsConfig; nats_ErrorHandler (ErrorHandler log)])
  ∧ url = comma_join (resolved_Servers ext cfg).
Proof.
  intros Hcfg.
  destruct (ConfigureNatsConnection_run ext w l cfg log Hcfg)
    as (nc & err & w' & evs & Hrun & Htrace & _ & Hconf).
  assert (connect_calls (run_events (ConfigureNatsConnection ext (Some l) log) w)
          = ConnectToNats_calls ext (Some l) (Some (ErrorHandler log)) w) as ->.
  { unfold ConnectToNats_calls.
    rewrite (run_events_Returned _ _ _ _ _ Hrun Htrace).
    destruct err as [e|].
    - by rewrite (run_events_Returned _ _ _ _ _ Hconf Htrace).
    - erewrite (run_events_Returned _ _ _ _ _ Hconf);
        [|cbn; by rewrite Htrace, <- app_assoc].
      rewrite connect_calls_app. unfold hook_events.
      case_decide; cbn; by rewrite app_nil_r. }
  intros Hin.
  destruct (ConnectToNats_call_options _ _ _ _ _ _ _ Hcfg Hin) as (-> & -> & _).
  clear Hrun Htrace Hconf.
  unfold ConnectToNats_calls in *.
  destruct (ConnectToNats_cases ext w l cfg (Some (ErrorHandler log)) Hcfg)
    as [endpoints e Hname Hdisc Hrun|t c e _ Htls Hbuild Hrun|_ Hbuild Hrun];
    (erewrite (run_events_Returned _ _ _ _ _ Hrun) in Hin |- *;
      [|cbn; by rewrite ?trace_resolved_world..]);
    rewrite ?connect_calls_app, ?connect_calls_discovery, ?connect_calls_tls in Hin |- *;
    cbn in Hin |- *; [by apply elem_of_nil in Hin..|].
  split; [done|]. rewrite last_snoc. split; [done|].
  split; [|unfold comma_join; by rewrite strings_Join_concat].
  unfold tls_options. destruct (TLS cfg) as [t|]; [|by left].
  destruct (TLSConfig ext t).1 as [c|]; [right; by exists c|by left].
Qed.

Lemma ConfigureNatsConnection_installs_handler_witness :
  connect_calls (run_events (ConfigureNatsConnection sample_ext (Some 1%positive) sample_log)
                   (sample_world sample_discovered))
  = [("nats://h1:4222,nats://h2:4223", [nats_ErrorHandler (ErrorHandler sample_log)])]
  ∧ last [nats_ErrorHandler (ErrorHandler sample_log)]
    = Some (nats_ErrorHandler (ErrorHandler sample_log))
  ∧ ([nats_ErrorHandler (ErrorHandler sample_log)]
     = [nats_ErrorHandler (ErrorHandler sample_log)]
     ∨ ∃ tlsConfig,
         [nats_ErrorHandler (ErrorHandler sample_log)]
         = [nats_Secure tlsConfig; nats_ErrorHandler (ErrorHandler sample_log)])
  ∧ "nats://h1:4222,nats://h2:4223"
    = comma_join (resolved_Servers sample_ext sample_discovered).
Proof.
  apply (ConfigureNatsConnection_installs_handler sample_ext
           (sample_world sample_discovered) 1%positive sample_discovered sample_log
           "nats://h1:4222,nats://h2:4223"
           [nats_ErrorHandler (ErrorHandler sample_log)]);
    [reflexivity|vm_compute; left].
Defined.

(** ** A second call *)

Lemma ConnectToNats_final_config (ext : Externals) (w : World) (l : loc)
    (cfg : NatsConfig) (errHandler : option ErrHandler) :
  configs w !! l = Some cfg →
  (discovery_ok ext cfg →
   configs (run_world (ConnectToNats ext (Some l) errHandler) w) !! l
   = Some (set_Servers cfg (resolved_Servers ext cfg)))
  ∧ (¬ discovery_ok ext cfg →
     configs (run_world (ConnectToNats ext (Some l) errHandler) w) !! l = Some cfg).
Proof.
  intros Hcfg.
  destruct (ConnectToNats_cases ext w l cfg errHandler Hcfg)
    as [endpoints e Hname Hdisc Hrun|t c e Hok Htls Hbuild Hrun|Hok Hbuild Hrun];
    rewrite (run_world_Returned _ _ _ _ Hrun); cbn [add_events set_trace configs].
  - split; [|done]. intros [?|Hnone]; [done|]. by rewrite Hdisc in Hnone.
  - split; [intros _; by apply lookup_resolved_world|done].
  - split; [intros _; by apply lookup_resolved_world|done].
Qed.

(** X15.  The configured addresses do not come back.  After a call whose
    lookup succeeded, a second call on the same config whose lookup fails
    returns the lookup's error and leaves in [config.Servers] the addresses
    the first call discovered, not the ones configured at the start. *)
Theorem ConnectToNats_keeps_discovered_Servers
    (ext1 ext2 : Externals) (w : World) (l : loc) (cfg : NatsConfig)
    (errHandler1 errHandler2 : option ErrHandler)
    (endpoints1 endpoints2 : list Endpoint) (e : error) :
  configs w !! l = Some cfg →
  DiscoveryName cfg ≠ "" →
  DiscoverEndpoints ext1 (DiscoveryName cfg) = (endpoints1, None) →
  DiscoverEndpoints ext2 (DiscoveryName cfg) = (endpoints2, Some e) →
  run_result (ConnectToNats ext2 (Some l) errHandler2)
    (run_world (ConnectToNats ext1 (Some l) errHandler1) w)
  = Some (None, Some e)
  ∧ Servers <$> configs (run_world (ConnectToNats ext2 (Some l) errHandler2)
                           (run_world (ConnectToNats ext1 (Some l) errHandler1) w)) !! l
    = Some (map endpoint_address endpoints1).
Proof.
  intros Hcfg Hname Hdisc1 Hdisc2.
  destruct (ConnectToNats_final_config ext1 w l cfg errHandler1 Hcfg) as [Hfirst _].
  assert (discovery_ok ext1 cfg) as Hok1 by (right; by rewrite Hdisc1).
  specialize (Hfirst Hok1).
  assert (resolved_Servers ext1 cfg = map endpoint_address endpoints1) as Hservers.
  { unfold resolved_Servers. case_decide; [|done]. by rewrite Hdisc1. }
  rewrite Hservers in Hfirst.
  pose proof (ConnectToNats_discovery_fails ext2 _ l _ errHandler2 endpoints2 e
                Hfirst Hname Hdisc2) as Hrun.
  rewrite (run_result_Returned _ _ _ _ Hrun), (run_world_Returned _ _ _ _ Hrun).
  split; [done|]. cbn [add_events set_trace configs]. by rewrite Hfirst.
Qed.

Lemma ConnectToNats_keeps_discovered_Servers_witness :
  run_result (ConnectToNats (sample_ext_with (Some sample_error) None None None)
                (Some 1%positive) None)
    (run_world (ConnectToNats sample_ext (Some 1%positive) None)
       (sample_world sample_discovered))
  = Some (None, Some sample_error)
  ∧ Servers <$> configs (run_world
                           (ConnectToNats (sample_ext_with (Some sample_error) None None None)
                              (Some 1%positive) None)
                           (run_world (ConnectToNats sample_ext (Some 1%positive) None)
                              (sample_world sample_discovered))) !! 1%positive
    = Some ["nats://h1:4222"; "nats://h2:4223"].
Proof.
  apply (ConnectToNats_keeps_discovered_Servers sample_ext
           (sample_ext_with (Some sample_error) None None None)
           (sample_world sample_discovered) 1%positive sample_discovered None None
           sample_endpoints [] sample_error);
    [reflexivity|discriminate|reflexivity|reflexivity].
Defined.
